(** * Record resolution, validation and prefill for the Grist / Démarches
      Simplifiées bridge

    A shallow embedding of [grist_connector.py], [app.py] and
    [ds_prefiller.py], followed by the properties of the specification that
    hold (or fail) on it.

    Conventions of the embedding.
    - A Python [dict] with string keys is an association list in insertion
      order ([dict]); order matters because pandas derives the column order
      of a frame from it.
    - A Python exception is a value of [exn] carried by [Raise]; a function
      that returns a [(success, result)] tuple returns [inl] for
      [(True, _)] and [inr] for [(False, _)], with one constructor of an
      error type per literal message of the source.
    - The remote services are functions from a URL (or a request) to what
      [requests] gives back: an exception or a response.
    - Cell values are the scalars [json.loads] produces.  A number is kept
      by its integer value together with a flag telling whether Python
      holds it as a [float]; fractional numbers and nested arrays or objects
      inside a record's field map are outside the model, and integers are
      taken to be exactly representable in a float64 (pandas may widen an
      integer column to floats).
    - Strings are byte strings (UTF-8); the character classes of the email
      pattern and the literals [int] accepts are modelled on ASCII.
    - What pandas does to the values it stores depends on the dtypes it
      infers; this is a parameter of the model ([Pandas.casts]) of which
      only [Pandas.casts_sound] is assumed. *)

From Stdlib Require Import ZArith List String Ascii Bool Lia DecimalString DecimalPos.
Import ListNotations.
Open Scope string_scope.
Open Scope Z_scope.

Set Implicit Arguments.

(** ** Python values *)

Module Py.

Inductive value : Type :=
| PNone
| PNaN
| PBool (b : bool)
| PNum (z : Z) (is_float : bool)
| PStr (s : string).

(** What Python raises.  [str(e)] is not modelled: the callers that format
    it only wrap it in a message of their own. *)
Inductive exn : Type :=
| DocIdRequired                                (* ValueError("L'ID du document est requis") *)
| HttpStatusError (status : Z) (body : string) (* Exception(f"Erreur {status}: {text}") *)
| UnexpectedFormat                             (* Exception(f"Format de données inattendu: {data}") *)
| TransportError (msg : string)                (* raised by requests.get / requests.post *)
| JsonDecodeError                              (* raised by response.json() *)
| AttributeError (msg : string)
| KeyError (key : string)
| TypeError (msg : string)
| ValueError (msg : string).

Inductive result (A : Type) : Type :=
| Ok (a : A)
| Raise (e : exn).

Arguments Ok {A} a.
Arguments Raise {A} e.

Definition bind {A B : Type} (m : result A) (k : A -> result B) : result B :=
  match m with
  | Ok a => k a
  | Raise e => Raise e
  end.

Definition is_none (v : value) : bool :=
  match v with PNone => true | _ => false end.

(** pandas' [isna]: [None] and [nan]. *)
Definition is_null (v : value) : bool :=
  match v with PNone | PNaN => true | _ => false end.

(** [bool(v)]. *)
Definition truthy (v : value) : bool :=
  match v with
  | PNone => false
  | PNaN => true
  | PBool b => b
  | PNum z _ => negb (z =? 0)
  | PStr s => negb (s =? "")%string
  end.

Definition str_of_Z (z : Z) : string := NilZero.string_of_int (Z.to_int z).

(** [str(v)].  A float prints with a trailing [.0]; beyond 10^16 Python
    switches to exponent notation, which is not modelled. *)
Definition str (v : value) : string :=
  match v with
  | PNone => "None"
  | PNaN => "nan"
  | PBool true => "True"
  | PBool false => "False"
  | PNum z false => str_of_Z z
  | PNum z true => str_of_Z z ++ ".0"
  | PStr s => s
  end.

(** The numeric value of a [bool], [int] or [float]. *)
Definition num_of (v : value) : option Z :=
  match v with
  | PBool b => Some (if b then 1 else 0)
  | PNum z _ => Some z
  | _ => None
  end.

(** [a == b] on non-null scalars: numbers (and booleans) by value, strings
    by content, anything else unequal. *)
Definition eq_scalar (a b : value) : bool :=
  match a, b with
  | PStr s, PStr t => (s =? t)%string
  | _, _ =>
    match num_of a, num_of b with
    | Some x, Some y => x =? y
    | _, _ => false
    end
  end.

(** ** Dictionaries *)

Definition dict : Type := list (string * value).

Fixpoint dict_get (k : string) (d : dict) : option value :=
  match d with
  | [] => None
  | (k', v) :: rest => if (k' =? k)%string then Some v else dict_get k rest
  end.

Definition dict_has (k : string) (d : dict) : bool :=
  match dict_get k d with Some _ => true | None => false end.

(** [d.get(k, default)]. *)
Definition get_default (k : string) (default : value) (d : dict) : value :=
  match dict_get k d with Some v => v | None => default end.

(** [d[k] = v]: in place when the key exists, appended otherwise. *)
Fixpoint dict_set (k : string) (v : value) (d : dict) : dict :=
  match d with
  | [] => [(k, v)]
  | (k', v') :: rest =>
    if (k' =? k)%string then (k', v) :: rest else (k', v') :: dict_set k v rest
  end.

(** [{k: v for k, v in d.items() if k != key}]. *)
Definition dict_without (key : string) (d : dict) : dict :=
  filter (fun kv => negb (fst kv =? key)%string) d.

Definition keys (d : dict) : list string := map fst d.

Definition opt_str (o : option string) : string :=
  match o with Some s => s | None => "None" end.

(** [not o] for an optional string: [None] and the empty string. *)
Definition falsy_opt (o : option string) : bool :=
  match o with
  | None => true
  | Some s => (s =? "")%string
  end.

End Py.

Import Py.

Notation "x <- m ;; k" := (bind m (fun x => k))
  (at level 61, m at next level, right associativity).

(** ** pandas *)

Module Pandas.

(** [a] may be stored by pandas as [b]: unchanged, [None] as [nan], a
    number as the float of the same value. *)
Definition widens (a b : value) : Prop :=
  b = a \/ (a = PNone /\ b = PNaN) \/ (exists z f, a = PNum z f /\ b = PNum z true).

(** Elementwise [==] of a Series with a scalar: a null on either side is
    never equal. *)
Definition pd_eq (cell v : value) : bool :=
  if is_null cell || is_null v then false else eq_scalar cell v.

(** A frame: its column index, its rows (each holding every column, in
    column order) and the cast pandas applies when a row is taken out as a
    Series of one common dtype. *)
Record DataFrame : Type := {
  columns : list string;
  rows : list dict;
  row_cast : value -> value
}.

Definition add_key (acc : list string) (k : string) : list string :=
  if existsb (String.eqb k) acc then acc else (acc ++ [k])%list.

(** Column index of [DataFrame(list_of_dicts)]: the keys in order of first
    appearance. *)
Definition union_keys (raw : list dict) : list string :=
  fold_left (fun acc r => fold_left add_key (keys r) acc) raw [].

(** A cell the record does not have is [nan]. *)
Definition cell (r : dict) (c : string) : value := get_default c PNaN r.

(** The dtype pandas infers for a column decides how each value is stored
    ([col_cast column_values v]); the dtypes of all columns decide the
    common dtype of a row Series ([series_cast raw_rows v]).  Both depend
    on the pandas version, so they are parameters of the model. *)
Record casts : Type := {
  col_cast : list value -> value -> value;
  series_cast : list dict -> value -> value
}.

(** All that is assumed of them. *)
Definition casts_sound (P : casts) : Prop :=
  (forall col v, widens v (col_cast P col v)) /\
  (forall raw v, widens v (series_cast P raw v)).

(** Object dtype everywhere: every value is stored as it came. *)
Definition object_casts : casts :=
  {| col_cast := fun _ v => v; series_cast := fun _ v => v |}.

(** A record as a row of the frame built from [raw]: one cell per column. *)
Definition store_row (P : casts) (raw : list dict) (r : dict) : dict :=
  map (fun c => (c, col_cast P (map (fun r' => cell r' c) raw) (cell r c)))
      (union_keys raw).

(** [pd.DataFrame(raw)] for a list of dicts. *)
Definition pd_DataFrame (P : casts) (raw : list dict) : DataFrame :=
  {| columns := union_keys raw;
     rows := map (store_row P raw) raw;
     row_cast := series_cast P raw |}.

(** [df.empty]. *)
Definition empty (df : DataFrame) : bool :=
  (List.length (rows df) =? 0)%nat || (List.length (columns df) =? 0)%nat.

Definition has_column (c : string) (df : DataFrame) : bool :=
  existsb (String.eqb c) (columns df).

(** [df[df[c] == v]]. *)
Definition filter_eq (df : DataFrame) (c : string) (v : value) : result DataFrame :=
  if has_column c df then
    Ok {| columns := columns df;
          rows := filter (fun r => pd_eq (cell r c) v) (rows df);
          row_cast := row_cast df |}
  else Raise (KeyError c).

(** [df[c].eq(v).any()] for a column [c] of the frame. *)
Definition any_eq (df : DataFrame) (c : string) (v : value) : bool :=
  existsb (fun r => pd_eq (cell r c) v) (rows df).

(** [df.iloc[0].to_dict()] of a frame with at least one row. *)
Definition to_dict (df : DataFrame) (r : dict) : dict :=
  map (fun kv => (fst kv, row_cast df (snd kv))) r.

End Pandas.

Import Pandas.

(** ** HTTP *)

Module Http.

(** What the code reads of a [requests] response; [json = None] when
    [response.json()] raises. *)
Record response (B : Type) : Type := {
  status_code : Z;
  text : string;
  json : option B
}.

Record request (B : Type) : Type := {
  url : string;
  authorization : string;
  payload : B
}.

(** Parsed JSON, for the endpoints whose body the code inspects by shape. *)
#[warnings="-register-all"]
Inductive json_value : Type :=
| JNull
| JBool (b : bool)
| JNum (z : Z)
| JStr (s : string)
| JArr (items : list json_value)
| JObj (members : list (string * json_value)).

Fixpoint member (k : string) (o : list (string * json_value)) : option json_value :=
  match o with
  | [] => None
  | (k', v) :: rest => if (k' =? k)%string then Some v else member k rest
  end.

End Http.

Import Http.

(** ** grist_connector.py *)

Module Grist.

Definition COL_NOM : string := "A_nom".
Definition COL_EMAIL : string := "usager_email".
Definition COL_TITRE_PROJET : string := "A_titre_du_projet".
Definition COL_NUMERO_DOSSIER : string := "number".
Definition COL_MONTANT_DRAC : string := "montant_drac".
Definition COL_MONTANT_DRAAF : string := "montant_draaf".

(** The module-level configuration read from the environment. *)
Record config : Type := {
  GRIST_API_KEY : option string;
  GRIST_DOC_ID : option string;
  GRIST_BASE_URL : string;
  GRIST_PROJETS_TABLE : string;
  GRIST_ANNOTATIONS_TABLE : string
}.

(** One element of the [records] array, a JSON object: [rec_id] is the
    value of its [id] key and [rec_fields] the object under its [fields]
    key, each [None] when the key is not there.  Elements that are not
    objects, and [fields] that are not objects, make the loop of
    [get_table_data] raise and are not represented. *)
Record record : Type := {
  rec_id : option value;
  rec_fields : option dict
}.

(** The body of the records endpoint, a JSON object: [body_records] is
    [data['records']], [None] when the key is not there (a body of another
    shape raises as well at that test). *)
Record records_body : Type := {
  body_records : option (list record)
}.

(** The table service. *)
Record remote : Type := {
  get_records : request unit -> result (response records_body);
  get_json : request unit -> result (response json_value)
}.

Record GristClient : Type := {
  base_url : string;
  api_key : option string;
  doc_id : option string
}.

(** [s.rstrip('/')]. *)
Fixpoint rstrip_slash (s : string) : string :=
  match s with
  | EmptyString => EmptyString
  | String c rest =>
    match rstrip_slash rest with
    | EmptyString => if (c =? "/")%char then EmptyString else String c EmptyString
    | r => String c r
    end
  end.

Definition headers (c : GristClient) : string := "Bearer " ++ opt_str (api_key c).

Definition mk_client (base : string) (key doc : option string) : GristClient :=
  {| base_url := rstrip_slash base; api_key := key; doc_id := doc |}.

Definition get_req (c : GristClient) (path : string) : request unit :=
  {| url := base_url c ++ "/docs/" ++ opt_str (doc_id c) ++ path;
     authorization := headers c;
     payload := tt |}.

(** The loop of [get_table_data] over [data['records']]: [acc] is [rows]. *)
Fixpoint collect_rows (recs : list record) (acc : list dict) : list dict :=
  match recs with
  | [] => acc
  | r :: rest =>
    match rec_fields r with
    | Some fields =>
      let row_data := dict_set "id" (match rec_id r with Some v => v | None => PNone end)
                               fields in
      collect_rows rest (acc ++ [row_data])%list
    | None => collect_rows rest acc
    end
  end.

Section Connector.

Variable P : casts.
Variable cfg : config.
Variable net : remote.

Definition list_tables (c : GristClient) : result json_value :=
  if falsy_opt (doc_id c) then Raise DocIdRequired else
  response <- get_json net (get_req c "/tables") ;;
  if negb (status_code response =? 200)
  then Raise (HttpStatusError (status_code response) (text response))
  else
    match Http.json response with
    | None => Raise JsonDecodeError
    | Some data =>
      match data with
      | JObj o =>
        match member "tables" o with
        | Some tables => Ok tables
        | None => Raise UnexpectedFormat
        end
      | JArr _ => Ok data
      | _ => Raise UnexpectedFormat
      end
    end.

(** The rows gathered by [get_table_data], before the frame is built. *)
Definition get_table_rows (c : GristClient) (table_id : string) : result (list dict) :=
  if falsy_opt (doc_id c) then Raise DocIdRequired else
  response <- get_records net (get_req c ("/tables/" ++ table_id ++ "/records")) ;;
  if negb (status_code response =? 200)
  then Raise (HttpStatusError (status_code response) (text response))
  else
    match Http.json response with
    | None => Raise JsonDecodeError
    | Some data =>
      match body_records data with
      | None => Raise UnexpectedFormat
      | Some recs => Ok (collect_rows recs [])
      end
    end.

Definition get_table_data (c : GristClient) (table_id : string) : result DataFrame :=
  rows <- get_table_rows c table_id ;;
  Ok (pd_DataFrame P rows).

Definition get_grist_client : GristClient :=
  mk_client (GRIST_BASE_URL cfg) (GRIST_API_KEY cfg) (GRIST_DOC_ID cfg).

(** The [(False, message)] results of [rechercher_dossier_par_email]. *)
Inductive dossier_error : Type :=
| SchemaMismatch                 (* "La colonne usager_email n'existe pas dans la table des dossiers" *)
| NotFound                       (* "Aucun dossier trouvé avec cet email." *)
| DossierException (e : exn).    (* f"Exception: {str(e)}" *)

(** The [(False, message)] results of
    [rechercher_annotations_par_id_dossier]. *)
Inductive annotation_error : Type :=
| EmptyAnnotations               (* "Aucune donnée dans la table des annotations" *)
| NoLinkColumn                   (* "Impossible de déterminer la colonne de référence au dossier" *)
| NoAnnotation                   (* "Aucune annotation trouvée pour ce dossier" *)
| AnnotationException (e : exn). (* f"Exception: {str(e)}" *)

(** [{"id": ..., "fields": {...}}]. *)
Record remote_row : Type := {
  row_id : value;
  row_fields : dict
}.

Definition format_result (d : dict) : remote_row :=
  {| row_id := get_default "id" PNone d;
     row_fields := dict_without "id" d |}.

(** [try: ... except Exception as e: return False, f"Exception: ..."]. *)
Definition try_except {A E : Type} (handler : exn -> E) (body : result (A + E)) : A + E :=
  match body with
  | Ok r => r
  | Raise e => inr (handler e)
  end.

Definition rechercher_dossier_par_email (email : string) : remote_row + dossier_error :=
  try_except DossierException
    (let client := get_grist_client in
     df_dossiers <- get_table_data client (GRIST_PROJETS_TABLE cfg) ;;
     if negb (has_column COL_EMAIL df_dossiers) then Ok (inr SchemaMismatch) else
     dossiers_filtres <- filter_eq df_dossiers COL_EMAIL (PStr email) ;;
     match rows dossiers_filtres with
     | [] => Ok (inr NotFound)
     | first :: _ => Ok (inl (format_result (to_dict dossiers_filtres first)))
     end).

Definition dossier_id_columns : list string :=
  ["dossier_id"; "projet_id"; "id_dossier"; "parentId"].

(** [for col in dossier_id_columns: if col in df.columns: ... break]. *)
Fixpoint probe_columns (candidates : list string) (df : DataFrame) : option string :=
  match candidates with
  | [] => None
  | col :: rest => if has_column col df then Some col else probe_columns rest df
  end.

(** [for col in df.columns: if df[col].eq(dossier_id).any(): ... break]. *)
Fixpoint scan_columns (cols : list string) (df : DataFrame) (dossier_id : value)
  : option string :=
  match cols with
  | [] => None
  | col :: rest =>
    if any_eq df col dossier_id then Some col else scan_columns rest df dossier_id
  end.

(** [not found_column]: [None] and the empty name are both falsy. *)
Definition not_found (found_column : option string) : bool :=
  match found_column with
  | None => true
  | Some c => (c =? "")%string
  end.

(** The column the annotations are filtered on; [None] when the function
    returns "Impossible de déterminer la colonne de référence au dossier". *)
Definition find_link_column (df : DataFrame) (dossier_id : value) : option string :=
  let found_column := probe_columns dossier_id_columns df in
  if not_found found_column then
    let found_column :=
      if (0 <? List.length (rows df))%nat && negb (is_none dossier_id) then
        match scan_columns (columns df) df dossier_id with
        | Some col => Some col
        | None => found_column
        end
      else found_column in
    if not_found found_column then None else found_column
  else found_column.

Definition rechercher_annotations_par_id_dossier (dossier_id : value)
  : remote_row + annotation_error :=
  try_except AnnotationException
    (let client := get_grist_client in
     df_annotations <- get_table_data client (GRIST_ANNOTATIONS_TABLE cfg) ;;
     if empty df_annotations then Ok (inr EmptyAnnotations) else
     match find_link_column df_annotations dossier_id with
     | None => Ok (inr NoLinkColumn)
     | Some found_column =>
       annotations <- filter_eq df_annotations found_column dossier_id ;;
       match rows annotations with
       | [] => Ok (inr NoAnnotation)
       | first :: _ => Ok (inl (format_result (to_dict annotations first)))
       end
     end).

(** The [combined_data] dict, in the order of the literal. *)
Definition combine (email : string) (dossier_fields : dict)
                   (montant_drac montant_draaf : string) : dict :=
  let numero_dossier :=
    get_default "N_dossier" (get_default COL_NUMERO_DOSSIER (PStr "") dossier_fields)
                dossier_fields in
  [ ("Nom", get_default COL_NOM (PStr "") dossier_fields);
    ("Email", PStr email);
    ("Titre_du_projet", get_default COL_TITRE_PROJET (PStr "") dossier_fields);
    ("Numero_dossier", numero_dossier);
    ("Montant_DRAC", PStr montant_drac);
    ("Montant_DRAAF", PStr montant_draaf) ].

Definition valider_email_et_recuperer_donnees (email : string) : dict + dossier_error :=
  match rechercher_dossier_par_email email with
  | inr result_dossier => inr result_dossier
  | inl result_dossier =>
    let dossier_id := row_id result_dossier in
    let '(montant_drac, montant_draaf) :=
      match rechercher_annotations_par_id_dossier dossier_id with
      | inl result_annotations =>
        (str (get_default COL_MONTANT_DRAC (PStr "0") (row_fields result_annotations)),
         str (get_default COL_MONTANT_DRAAF (PStr "0") (row_fields result_annotations)))
      | inr _ => ("0", "0")
      end in
    inl (combine email (row_fields result_dossier) montant_drac montant_draaf)
  end.

End Connector.

End Grist.

(** ** app.py *)

Module Re.

(** Regular expressions over bytes, matched by derivatives. *)
Inductive regex : Type :=
| Void
| Eps
| Class (p : ascii -> bool)
| Cat (r1 r2 : regex)
| Alt (r1 r2 : regex)
| Star (r : regex).

Definition Plus (r : regex) : regex := Cat r (Star r).

Fixpoint nullable (r : regex) : bool :=
  match r with
  | Void => false
  | Eps => true
  | Class _ => false
  | Cat r1 r2 => nullable r1 && nullable r2
  | Alt r1 r2 => nullable r1 || nullable r2
  | Star _ => true
  end.

Fixpoint deriv (c : ascii) (r : regex) : regex :=
  match r with
  | Void => Void
  | Eps => Void
  | Class p => if p c then Eps else Void
  | Cat r1 r2 =>
    if nullable r1 then Alt (Cat (deriv c r1) r2) (deriv c r2)
    else Cat (deriv c r1) r2
  | Alt r1 r2 => Alt (deriv c r1) (deriv c r2)
  | Star r1 => Cat (deriv c r1) (Star r1)
  end.

(** The whole of [s] is in the language of [r]. *)
Fixpoint fullmatch (r : regex) (s : string) : bool :=
  match s with
  | EmptyString => nullable r
  | String c rest => fullmatch (deriv c r) rest
  end.

(** [s] without one final newline, when it ends with one. *)
Fixpoint chomp (s : string) : option string :=
  match s with
  | EmptyString => None
  | String c EmptyString => if (c =? "010")%char then Some EmptyString else None
  | String c rest =>
    match chomp rest with
    | Some r => Some (String c r)
    | None => None
    end
  end.

(** [re.match('^' + r + '$', s) is not None]: [$] matches at the end of
    the string and just before a newline that ends it. *)
Definition match_anchored (r : regex) (s : string) : bool :=
  fullmatch r s ||
  match chomp s with
  | Some s' => fullmatch r s'
  | None => false
  end.

Definition between (lo hi : nat) (c : ascii) : bool :=
  let n := nat_of_ascii c in ((lo <=? n) && (n <=? hi))%nat.

Definition alpha (c : ascii) : bool := between 97 122 c || between 65 90 c.
Definition digit (c : ascii) : bool := between 48 57 c.
Definition one_of (s : string) (c : ascii) : bool :=
  existsb (Ascii.eqb c) (list_ascii_of_string s).

(** The language of a regular expression. *)
Inductive lang : regex -> string -> Prop :=
| lang_eps : lang Eps EmptyString
| lang_class p c : p c = true -> lang (Class p) (String c EmptyString)
| lang_cat r1 r2 s1 s2 : lang r1 s1 -> lang r2 s2 -> lang (Cat r1 r2) (s1 ++ s2)
| lang_alt_l r1 r2 s : lang r1 s -> lang (Alt r1 r2) s
| lang_alt_r r1 r2 s : lang r2 s -> lang (Alt r1 r2) s
| lang_star_nil r : lang (Star r) EmptyString
| lang_star_app r s1 s2 : lang r s1 -> lang (Star r) s2 -> lang (Star r) (s1 ++ s2).

(** Every character of [s] is in the class [p]. *)
Fixpoint all_chars (p : ascii -> bool) (s : string) : bool :=
  match s with
  | EmptyString => true
  | String c rest => p c && all_chars p rest
  end.

End Re.

Module App.

Import Re.

(** [[a-zA-Z0-9._%+-]+@[a-zA-Z0-9.-]+\.[a-zA-Z]{2,}] *)
Definition email_pattern : regex :=
  Cat (Plus (Class (fun c => alpha c || digit c || one_of "._%+-" c)))
 (Cat (Class (one_of "@"))
 (Cat (Plus (Class (fun c => alpha c || digit c || one_of ".-" c)))
 (Cat (Class (one_of "."))
 (Cat (Class alpha) (Cat (Class alpha) (Star (Class alpha))))))).

(** [re.match] raises [TypeError] on anything but a string. *)
Definition is_valid_email (email : value) : result bool :=
  match email with
  | PStr s => Ok (match_anchored email_pattern s)
  | _ => Raise (TypeError "expected string or bytes-like object")
  end.

(** *** [int(x)] *)

(** The ASCII whitespace [int] skips around a literal. *)
Definition is_space (c : ascii) : bool := between 9 13 c || between 32 32 c.

Fixpoint lstrip (s : string) : string :=
  match s with
  | String c rest => if is_space c then lstrip rest else s
  | EmptyString => EmptyString
  end.

Definition digit_val (c : ascii) : Z := Z.of_nat (nat_of_ascii c) - 48.

(** Digits with single underscores between them; gives the value, the
    number of digits and what follows the literal. *)
Fixpoint scan_digits (s : string) (acc : Z) (after_digit : bool) (count : nat)
  : option (Z * nat * string) :=
  match s with
  | EmptyString => if after_digit then Some (acc, count, EmptyString) else None
  | String c rest =>
    if digit c then scan_digits rest (10 * acc + digit_val c) true (S count)
    else if (c =? "_")%char then
      if after_digit then scan_digits rest acc false count else None
    else if after_digit then Some (acc, count, s) else None
  end.

(** Default of [sys.int_max_str_digits] (CPython 3.11 and later). *)
Definition int_max_str_digits : nat := 4300.

(** [int(s)] for an ASCII string, base 10.  Digits and whitespace outside
    ASCII, which Python also accepts, are refused here. *)
Definition int_of_string (s : string) : option Z :=
  let s := lstrip s in
  let '(sign, s) :=
    match s with
    | String c rest =>
      if (c =? "-")%char then (-1, rest)
      else if (c =? "+")%char then (1, rest)
      else (1, s)
    | EmptyString => (1, s)
    end in
  match scan_digits s 0 false 0 with
  | Some (n, count, rest) =>
    match lstrip rest with
    | EmptyString => if (int_max_str_digits <? count)%nat then None else Some (sign * n)
    | _ => None
    end
  | None => None
  end.

Definition py_int (v : value) : result Z :=
  match v with
  | PNone => Raise (TypeError "int() argument must be a string, a bytes-like object or a real number, not 'NoneType'")
  | PNaN => Raise (ValueError "cannot convert float NaN to integer")
  | PBool b => Ok (if b then 1 else 0)
  | PNum z _ => Ok z
  | PStr s =>
    match int_of_string s with
    | Some z => Ok z
    | None => Raise (ValueError "invalid literal for int() with base 10")
    end
  end.

(** [champs_manquants.append(label)] when [cond]. *)
Definition append_if (cond : bool) (label : string) (champs : list string) : list string :=
  if cond then (champs ++ [label])%list else champs.

(** [form_data] is [st.session_state.form_data]. *)
Definition verifier_champs_obligatoires (form_data : dict) : result (list string) :=
  let champs_manquants : list string := [] in
  let email := get_default "Email" (PStr "") form_data in
  champs_manquants <-
    (if negb (truthy email) then Ok (champs_manquants ++ ["Email"])%list
     else
       valid <- is_valid_email email ;;
       Ok (append_if (negb valid) "Email (format invalide)" champs_manquants)) ;;
  let champs_manquants :=
    append_if (negb (truthy (get_default "Titre_du_projet" (PStr "") form_data)))
              "Titre du projet" champs_manquants in
  let champs_manquants :=
    append_if (negb (truthy (get_default "Numero_dossier" (PStr "") form_data)))
              "Numéro de dossier" champs_manquants in
  montant_drac <- py_int (get_default "Montant_DRAC" (PNum 0 false) form_data) ;;
  let champs_manquants := append_if (montant_drac <=? 0) "Montant DRAC" champs_manquants in
  montant_draaf <- py_int (get_default "Montant_DRAAF" (PNum 0 false) form_data) ;;
  let champs_manquants := append_if (montant_draaf <=? 0) "Montant DRAAF" champs_manquants in
  Ok champs_manquants.

End App.

(** ** ds_prefiller.py *)

Module Prefill.

Definition FIELD_MAPPING : list (string * string) :=
  [ ("Titre_du_projet", "Q2hhbXAtNjIyMzQw");
    ("Numero_dossier", "Q2hhbXAtNjA3OTQ3");
    ("Montant_DRAC", "Q2hhbXAtNDA3NDExMQ");
    ("Montant_DRAAF", "Q2hhbXAtNDA3NDExMg");
    ("Nom", "Q2hhbXAtNjA3OTcy");
    ("Email", "Q2hhbXAtNjA3OTc1") ].

Fixpoint field_id (key : string) (mapping : list (string * string)) : option string :=
  match mapping with
  | [] => None
  | (k, id) :: rest => if (k =? key)%string then Some id else field_id key rest
  end.

(** The loop of [map_data] over [data_dict.items()]. *)
Fixpoint map_data_loop (items : dict) (mapped_data : dict) : dict :=
  match items with
  | [] => mapped_data
  | (key, v) :: rest =>
    match field_id key FIELD_MAPPING with
    | Some id => map_data_loop rest (dict_set ("champ_" ++ id) (PStr (str v)) mapped_data)
    | None => map_data_loop rest mapped_data
    end
  end.

Definition map_data (data_dict : dict) : dict := map_data_loop data_dict [].

(** The [(False, message)] results of [generate_prefilled_url]. *)
Inductive prefill_error : Type :=
| MissingCredential              (* "Token API non trouvé. Vérifiez votre fichier .env" *)
| PrefillApiError (body : string) (* f"Erreur API DS: {response.text}" *)
| PrefillException (e : exn).     (* f"Exception: {str(e)}" *)

(** [response.json().get("dossier_url", "")]. *)
Definition dossier_url (response : Http.response json_value) : result json_value :=
  match Http.json response with
  | None => Raise JsonDecodeError
  | Some (JObj o) =>
    match member "dossier_url" o with
    | Some u => Ok u
    | None => Ok (JStr "")
    end
  | Some _ => Raise (AttributeError "get")
  end.

Section Generate.

Variable API_TOKEN : option string.
Variable post : request dict -> result (response json_value).

(** The result together with the requests sent, in order. *)
Definition generate_prefilled_url (data_dict : dict) (demarche_id : string)
  : (json_value + prefill_error) * list (request dict) :=
  if falsy_opt API_TOKEN then (inr MissingCredential, []) else
  let api_url := "https://www.demarches-simplifiees.fr/api/public/v1/demarches/"
                 ++ demarche_id ++ "/dossiers" in
  let mapped_data := map_data data_dict in
  let req := {| url := api_url;
                authorization := "Bearer " ++ opt_str API_TOKEN;
                payload := mapped_data |} in
  match post req with
  | Raise e => (inr (PrefillException e), [req])
  | Ok response =>
    if status_code response =? 201 then
      match dossier_url response with
      | Ok u => (inl u, [req])
      | Raise e => (inr (PrefillException e), [req])
      end
    else (inr (PrefillApiError (text response)), [req])
  end.

End Generate.

End Prefill.

(** ** The specification's wording *)

Module Spec.

Import Grist App.

(** The identifier attached to a row: the record's [id], [None] when the
    record has none. *)
Definition id_of (r : record) : value :=
  match rec_id r with Some v => v | None => PNone end.

Definition has_fields (r : record) : bool :=
  match rec_fields r with Some _ => true | None => false end.

(** [row] is a copy of the field map of [r] with the identifier of [r]
    attached. *)
Definition row_from (r : record) (row : dict) : Prop :=
  exists fields,
    rec_fields r = Some fields /\
    dict_get "id" row = Some (id_of r) /\
    forall k, k <> "id" -> dict_get k row = dict_get k fields.

(** The row's email field is the queried email, as a string. *)
Definition email_is (email : string) (row : dict) : Prop :=
  dict_get COL_EMAIL row = Some (PStr email).

(** [row] is the record [r] as the frame returns it: same identifier and
    same fields, up to the widening pandas applies. *)
Definition selected_from (r : dict) (row : remote_row) : Prop :=
  (forall v, dict_get "id" r = Some v -> widens v (row_id row)) /\
  (forall k v, k <> "id" -> dict_get k r = Some v ->
     exists v', dict_get k (row_fields row) = Some v' /\ widens v v').

(** The value read for column [k] of the record [r] of a table whose
    records are [raw]: the record's cell, [nan] when the record lacks it,
    if some record has the key; the fallback if none has. *)
Definition column_cell (raw : list dict) (r : dict) (k : string)
                       (fallback : value -> Prop) (v : value) : Prop :=
  if existsb (dict_has k) raw then widens (cell r k) v else fallback v.

(** The foreign-key column as the specification describes it: the first
    candidate name that is a column; failing that, the first column in
    which some row holds a value equal to the case identifier. *)
Definition link_column (df : DataFrame) (dossier_id : value) : option string :=
  match find (fun c => has_column c df) dossier_id_columns with
  | Some c => Some c
  | None => find (fun c => existsb (fun r => pd_eq (cell r c) dossier_id) (rows df))
                 (columns df)
  end.

Definition local_char (c : ascii) : bool :=
  Re.alpha c || Re.digit c || Re.one_of "._%+-" c.

Definition domain_char (c : ascii) : bool :=
  Re.alpha c || Re.digit c || Re.one_of ".-" c.

(** [local@domain.tld]: a non-empty local part, a non-empty domain, and
    after the domain's last dot at least two letters. *)
Definition email_shape (s : string) : Prop :=
  exists local domain tld,
    s = local ++ "@" ++ domain ++ "." ++ tld /\
    local <> "" /\ Re.all_chars local_char local = true /\
    domain <> "" /\ Re.all_chars domain_char domain = true /\
    (2 <= String.length tld)%nat /\ Re.all_chars Re.alpha tld = true.



Definition only_if (missing : bool) (label : string) : list string :=
  if missing then [label] else [].

(** The entry of the validator for the email: the plain label when the
    email is empty, the format label when it does not match the pattern,
    nothing when it does. *)
Definition email_entry (email : value) (entry : list string) : Prop :=
  (truthy email = false /\ entry = ["Email"]) \/
  (truthy email = true /\ is_valid_email email = Ok false /\
   entry = ["Email (format invalide)"]) \/
  (truthy email = true /\ is_valid_email email = Ok true /\ entry = []).


End Spec.

(** ** Concrete services *)

Module Examples.

Import Grist.

Definition cfg : config :=
  {| GRIST_API_KEY := Some "key";
     GRIST_DOC_ID := Some "doc";
     GRIST_BASE_URL := "https://grist.numerique.gouv.fr/api";
     GRIST_PROJETS_TABLE := "Demarche_87698_dossiers";
     GRIST_ANNOTATIONS_TABLE := "Demarche_87698_annotations" |}.

Definition cases_url : string :=
  "https://grist.numerique.gouv.fr/api/docs/doc/tables/Demarche_87698_dossiers/records".

Definition annotations_url : string :=
  "https://grist.numerique.gouv.fr/api/docs/doc/tables/Demarche_87698_annotations/records".

Definition tables_url : string :=
  "https://grist.numerique.gouv.fr/api/docs/doc/tables".

(** A 200 response whose body is [{"records": recs}]. *)
Definition records_response (recs : list record) : result (response records_body) :=
  Ok {| status_code := 200; text := "";
        json := Some {| body_records := Some recs |} |}.

(** A service that answers the two table fetches as given. *)
Definition serve (cases annotations : result (response records_body)) : remote :=
  {| get_records := fun req =>
       if (url req =? cases_url)%string then cases
       else if (url req =? annotations_url)%string then annotations
       else Raise (TransportError "unknown host");
     get_json := fun _ => Raise (TransportError "unknown host") |}.

(** A service that answers the tables listing as given. *)
Definition serve_tables (tables : result (response json_value)) : remote :=
  {| get_records := fun _ => Raise (TransportError "unknown host");
     get_json := fun req =>
       if (url req =? tables_url)%string then tables
       else Raise (TransportError "unknown host") |}.

Definition case_7 : record :=
  {| rec_id := Some (PNum 7 false);
     rec_fields := Some [ ("usager_email", PStr "a@b.com");
                          ("A_titre_du_projet", PStr "Proj X");
                          ("N_dossier", PStr "D1") ] |}.

Definition annotation_3 : record :=
  {| rec_id := Some (PNum 3 false);
     rec_fields := Some [ ("dossier_id", PNum 7 false);
                          ("montant_drac", PNum 1000 false);
                          ("montant_draaf", PNum 500 false) ] |}.

(** An annotation whose only matching column has the empty name. *)
Definition annotation_unnamed : record :=
  {| rec_id := Some (PNum 3 false);
     rec_fields := Some [ ("", PNum 7 false);
                          ("montant_drac", PNum 1000 false);
                          ("montant_draaf", PNum 500 false) ] |}.

(** Two case records with different field sets. *)
Definition case_1_number : record :=
  {| rec_id := Some (PNum 1 false);
     rec_fields := Some [ ("usager_email", PStr "a@b.com");
                          ("number", PStr "N-12") ] |}.

Definition case_2_dossier : record :=
  {| rec_id := Some (PNum 2 false);
     rec_fields := Some [ ("usager_email", PStr "c@d.com");
                          ("A_nom", PStr "Zoe");
                          ("N_dossier", PStr "D2") ] |}.

(** A record without a field map. *)
Definition bare_8 : record :=
  {| rec_id := Some (PNum 8 false); rec_fields := None |}.

Definition timeout : result (response records_body) :=
  Raise (TransportError "Connection timed out").

End Examples.

(** ** grist_connector.py: listing documents and testing the connection *)

Module Diagnostics.

Import Grist.

(** [for x in v]: a list gives its items, a dict its keys, a string its
    characters (bytes here); anything else is not iterable. *)
Definition py_iter (v : json_value) : result (list json_value) :=
  match v with
  | JArr items => Ok items
  | JObj o => Ok (map (fun kv => JStr (fst kv)) o)
  | JStr s => Ok (map (fun c => JStr (String c EmptyString)) (list_ascii_of_string s))
  | _ => Raise (TypeError "object is not iterable")
  end.

(** [table.get('id')]: only a dict has [get]. *)
Definition get_id (table : json_value) : result json_value :=
  match table with
  | JObj o => Ok (match member "id" o with Some v => v | None => JNull end)
  | _ => Raise (AttributeError "get")
  end.

(** What [str.join] demands of each item. *)
Definition as_str (v : json_value) : result string :=
  match v with
  | JStr s => Ok s
  | _ => Raise (TypeError "sequence item: expected str instance")
  end.

(** [[f(x) for x in l]]: the first exception ends the comprehension. *)
Fixpoint traverse {A B : Type} (f : A -> result B) (l : list A) : result (list B) :=
  match l with
  | [] => Ok []
  | x :: rest =>
    y <- f x ;;
    ys <- traverse f rest ;;
    Ok (y :: ys)
  end.

(** [sep.join(l)] for a list of strings. *)
Fixpoint join (sep : string) (l : list string) : string :=
  match l with
  | [] => ""
  | [x] => x
  | x :: rest => x ++ sep ++ join sep rest
  end.

Definition docs_req (c : GristClient) : request unit :=
  {| url := base_url c ++ "/docs";
     authorization := headers c;
     payload := tt |}.

Section Client.

Variable cfg : config.
Variable net : remote.

(** The whole body is under [try]; any exception gives the empty list. *)
Definition list_documents (c : GristClient) : json_value :=
  match
    (response <- get_json net (docs_req c) ;;
     if negb (status_code response =? 200)
     then Raise (HttpStatusError (status_code response) (text response))
     else
       match Http.json response with
       | None => Raise JsonDecodeError
       | Some data =>
         match data with
         | JArr _ => Ok data
         | JObj o =>
           match member "docs" o with
           | Some docs => Ok docs
           | None => Ok (JArr [data])
           end
         | _ => Ok (JArr [data])
         end
       end)
  with
  | Ok documents => documents
  | Raise _ => JArr []
  end.

(** [(True, message)] is [inl message]; [(False, f"Exception: {str(e)}")]
    is [inr e]. *)
Definition test_grist_connection : string + exn :=
  match
    (let client := get_grist_client cfg in
     tables <- list_tables net client ;;
     items <- py_iter tables ;;
     table_names <- traverse get_id items ;;
     names <- traverse as_str table_names ;;
     Ok ("Connexion réussie à Grist. Tables disponibles: " ++ join ", " names))
  with
  | Ok message => inl message
  | Raise e => inr e
  end.

End Client.

(** [n] slashes. *)
Fixpoint slashes (n : nat) : string :=
  match n with
  | O => ""
  | S n' => String "/" (slashes n')
  end.

(** [s.endswith('/')]. *)
Fixpoint ends_with_slash (s : string) : bool :=
  match s with
  | EmptyString => false
  | String c EmptyString => (c =? "/")%char
  | String _ rest => ends_with_slash rest
  end.

End Diagnostics.

(** ** app.py: the two actions of the page *)

Module Ui.

Import Grist App Prefill.

(** The keys [main] keeps in [st.session_state]. *)
Record session_state : Type := {
  generate_success : bool;
  dossier_url : json_value;
  form_data : dict;
  grist_data_loaded : bool
}.



(** What [afficher_resultat] does after its messages; the two [Rerun]
    outcomes end the script run through [st.rerun()]. *)
Inductive result_feedback : Type :=
| LinkShown
| RerunAfterReset
| Idle
| RerunAfterSuccess
| GenerationFailed (e : prefill_error).   (* st.error(f"❌ Erreur: {result}") *)

Section Page.

Variable P : casts.
Variable cfg : config.
Variable net : remote.
Variable API_TOKEN : option string.
Variable post : request dict -> result (response json_value).
Variable demarche_id : string.


(** [afficher_resultat]: [new_link_clicked] and [generate_clicked] are the
    user's clicks; a disabled button returns [False] whatever the user
    does.  The result carries the requests sent to the prefill service. *)
Definition afficher_resultat (st : session_state) (new_link_clicked generate_clicked : bool)
  : result (session_state * result_feedback * list (request dict)) :=
  champs_manquants <- verifier_champs_obligatoires (form_data st) ;;
  let bouton_disabled :=
    (0 <? List.length champs_manquants)%nat && negb (generate_success st) in
  if generate_success st then
    if new_link_clicked then
      Ok ({| generate_success := false;
             dossier_url := JStr "";
             form_data := form_data st;
             grist_data_loaded := grist_data_loaded st |}, RerunAfterReset, [])
    else Ok (st, LinkShown, [])
  else
    if generate_clicked && negb bouton_disabled then
      let '(outcome, sent) :=
        generate_prefilled_url API_TOKEN post (form_data st) demarche_id in
      match outcome with
      | inl result =>
        Ok ({| generate_success := true;
               dossier_url := result;
               form_data := form_data st;
               grist_data_loaded := grist_data_loaded st |}, RerunAfterSuccess, sent)
      | inr result => Ok (st, GenerationFailed result, sent)
      end
    else Ok (st, Idle, []).

End Page.

End Ui.

(** * Properties *)

Unset Implicit Arguments.

(** ** Dictionaries and frames *)

Section DictFacts.

Lemma dict_get_set_eq (k : string) (v : value) (d : dict) :
  dict_get k (dict_set k v d) = Some v.
Proof.
  induction d as [|[k' v'] d IH]; simpl.
  - now rewrite String.eqb_refl.
  - destruct (k' =? k)%string eqn:E; simpl; rewrite E; auto.
Qed.

Lemma dict_get_set_ne (k k' : string) (v : value) (d : dict) :
  k <> k' -> dict_get k' (dict_set k v d) = dict_get k' d.
Proof.
  intros Hne. induction d as [|[k0 v0] d IH]; simpl.
  - destruct (k =? k')%string eqn:E; auto.
    apply String.eqb_eq in E. contradiction.
  - destruct (k0 =? k)%string eqn:E; simpl.
    + apply String.eqb_eq in E. subst k0.
      destruct (k =? k')%string eqn:E'; auto.
      apply String.eqb_eq in E'. contradiction.
    + now rewrite IH.
Qed.

Lemma dict_get_without_ne (key k : string) (d : dict) :
  k <> key -> dict_get k (dict_without key d) = dict_get k d.
Proof.
  intros Hne. unfold dict_without.
  induction d as [|[k0 v0] d IH]; simpl; auto.
  destruct (k0 =? key)%string eqn:E; simpl.
  - apply String.eqb_eq in E. subst k0.
    destruct (key =? k)%string eqn:E'; auto.
    apply String.eqb_eq in E'. congruence.
  - now rewrite IH.
Qed.

Lemma dict_get_without_eq (key : string) (d : dict) :
  dict_get key (dict_without key d) = None.
Proof.
  unfold dict_without.
  induction d as [|[k0 v0] d IH]; simpl; auto.
  destruct (k0 =? key)%string eqn:E; simpl; auto.
  now rewrite E.
Qed.

Lemma dict_get_map_values (f : value -> value) (k : string) (d : dict) :
  dict_get k (map (fun kv => (fst kv, f (snd kv))) d) = option_map f (dict_get k d).
Proof.
  induction d as [|[k0 v0] d IH]; simpl; auto.
  destruct (k0 =? k)%string; auto.
Qed.

Lemma dict_get_tabulate (g : string -> value) (k : string) (cols : list string) :
  dict_get k (map (fun c => (c, g c)) cols) =
  if existsb (String.eqb k) cols then Some (g k) else None.
Proof.
  induction cols as [|c cols IH]; simpl; auto.
  rewrite (String.eqb_sym k c).
  destruct (c =? k)%string eqn:E; simpl; auto.
  apply String.eqb_eq in E. now subst.
Qed.

End DictFacts.

Section FrameFacts.

Lemma existsb_eqb_In (k : string) (l : list string) :
  existsb (String.eqb k) l = true <-> In k l.
Proof.
  rewrite existsb_exists. split.
  - intros [x [Hin E]]. apply String.eqb_eq in E. now subst.
  - intros Hin. exists k. split; auto. apply String.eqb_refl.
Qed.

Lemma In_add_key (acc : list string) (k c : string) :
  In c (add_key acc k) <-> In c acc \/ c = k.
Proof.
  unfold add_key. destruct (existsb (String.eqb k) acc) eqn:E.
  - apply existsb_eqb_In in E. split; [tauto|]. intros [H|H]; subst; auto.
  - rewrite in_app_iff. simpl. intuition (subst; auto).
Qed.

Lemma In_fold_add_key (ks acc : list string) (c : string) :
  In c (fold_left add_key ks acc) <-> In c acc \/ In c ks.
Proof.
  revert acc. induction ks as [|k ks IH]; intros acc; simpl.
  - tauto.
  - rewrite IH, In_add_key. split; intros H; intuition auto.
Qed.

Lemma In_keys_dict_has (c : string) (r : dict) :
  In c (keys r) <-> dict_has c r = true.
Proof.
  unfold dict_has, keys. induction r as [|[k v] r IH]; simpl.
  - split; [tauto | discriminate].
  - destruct (k =? c)%string eqn:E.
    + apply String.eqb_eq in E. split; auto.
    + rewrite <- IH. split; [intros [H|H]; auto | auto].
      subst. rewrite String.eqb_refl in E. discriminate.
Qed.

Lemma In_union_keys_from (raw : list dict) (acc : list string) (c : string) :
  In c (fold_left (fun acc r => fold_left add_key (keys r) acc) raw acc) <->
  In c acc \/ exists r, In r raw /\ dict_has c r = true.
Proof.
  revert acc. induction raw as [|r raw IH]; intros acc; simpl.
  - split; [tauto|]. intros [H|[r [[] _]]]; auto.
  - rewrite IH, In_fold_add_key, In_keys_dict_has. split.
    + intros [[H|H]|[r' [Hin Hh]]]; eauto.
    + intros [H|[r' [[Heq|Hin] Hh]]]; subst; eauto.
Qed.

(** A name is a column of the frame exactly when some row has that key. *)
Lemma In_union_keys (raw : list dict) (c : string) :
  In c (union_keys raw) <-> exists r, In r raw /\ dict_has c r = true.
Proof.
  unfold union_keys. rewrite In_union_keys_from. simpl. tauto.
Qed.

Lemma has_column_DataFrame (P : casts) (raw : list dict) (c : string) :
  has_column c (pd_DataFrame P raw) = existsb (dict_has c) raw.
Proof.
  unfold has_column. simpl.
  destruct (existsb (dict_has c) raw) eqn:E.
  - apply existsb_eqb_In, In_union_keys. now apply existsb_exists.
  - destruct (existsb (String.eqb c) (union_keys raw)) eqn:E'; auto.
    apply existsb_eqb_In, In_union_keys, existsb_exists in E'. congruence.
Qed.

Lemma widens_refl (a : value) : widens a a.
Proof. now left. Qed.

Lemma widens_trans (a b c : value) : widens a b -> widens b c -> widens a c.
Proof.
  unfold widens.
  intros [->|[[-> ->]|[z [f [-> ->]]]]] [->|[[E1 E2]|[z' [f' [E1 E2]]]]];
    subst; try discriminate; eauto 8.
  inversion E1; subst. eauto 8.
Qed.

Lemma object_casts_sound : casts_sound object_casts.
Proof. split; intros; apply widens_refl. Qed.

(** Widening is invisible to comparisons. *)
Lemma pd_eq_widens_l (a b v : value) : widens a b -> pd_eq b v = pd_eq a v.
Proof.
  intros [->|[[-> ->]|[z [f [-> ->]]]]]; auto.
Qed.

Lemma pd_eq_widens_r (a b c : value) : widens a b -> pd_eq c b = pd_eq c a.
Proof.
  intros [->|[[-> ->]|[z [f [-> ->]]]]]; auto; destruct c; reflexivity.
Qed.

Lemma pd_eq_str (a : value) (s : string) : pd_eq a (PStr s) = true <-> a = PStr s.
Proof.
  destruct a as [| |b|z f|t]; unfold pd_eq; simpl;
    try (split; discriminate).
  rewrite String.eqb_eq. split; congruence.
Qed.

Lemma widens_from_str (b : value) (s : string) : widens (PStr s) b -> b = PStr s.
Proof.
  intros [E|[[E _]|[z [f [E _]]]]]; congruence.
Qed.

Lemma filter_map_comm {A B : Type} (f : B -> bool) (g : A -> B) (l : list A) :
  filter f (map g l) = map g (filter (fun x => f (g x)) l).
Proof.
  induction l as [|x l IH]; simpl; auto.
  destruct (f (g x)); simpl; now rewrite IH.
Qed.

Lemma filter_first {A : Type} (f : A -> bool) (before after : list A) (x : A) :
  (forall y, In y before -> f y = false) -> f x = true ->
  filter f (before ++ x :: after) = x :: filter f after.
Proof.
  intros Hb Hx. induction before as [|y before IH]; simpl.
  - now rewrite Hx.
  - rewrite (Hb y (or_introl eq_refl)). apply IH.
    intros z Hz. apply Hb. now right.
Qed.

Lemma filter_none {A : Type} (f : A -> bool) (l : list A) :
  (forall y, In y l -> f y = false) -> filter f l = [].
Proof.
  intros H. induction l as [|y l IH]; simpl; auto.
  rewrite (H y (or_introl eq_refl)). apply IH. intros z Hz. apply H. now right.
Qed.

Lemma cell_store_row (P : casts) (raw : list dict) (r : dict) (c : string) :
  In c (union_keys raw) ->
  cell (store_row P raw r) c = col_cast P (map (fun r' => cell r' c) raw) (cell r c).
Proof.
  intros Hc. unfold cell at 1, get_default, store_row.
  rewrite dict_get_tabulate.
  apply existsb_eqb_In in Hc. now rewrite Hc.
Qed.

Lemma dict_get_store_row (P : casts) (raw : list dict) (r : dict) (k : string) :
  In k (union_keys raw) ->
  dict_get k (store_row P raw r) =
  Some (col_cast P (map (fun r' => cell r' k) raw) (cell r k)).
Proof.
  intros Hc. unfold store_row. rewrite dict_get_tabulate.
  apply existsb_eqb_In in Hc. now rewrite Hc.
Qed.

Lemma pd_eq_store_row (P : casts) (raw : list dict) (r : dict) (c : string) (v : value) :
  casts_sound P -> In c (union_keys raw) ->
  pd_eq (cell (store_row P raw r) c) v = pd_eq (cell r c) v.
Proof.
  intros [Hcol _] Hc. rewrite cell_store_row by assumption.
  apply pd_eq_widens_l, Hcol.
Qed.

(** Filtering the frame on a column selects the records whose own cell
    compares equal, in the order of the records. *)
Lemma filter_eq_DataFrame (P : casts) (raw : list dict) (c : string) (v : value) :
  casts_sound P -> In c (union_keys raw) ->
  filter (fun r => pd_eq (cell r c) v) (rows (pd_DataFrame P raw)) =
  map (store_row P raw) (filter (fun r => pd_eq (cell r c) v) raw).
Proof.
  intros HP Hc. simpl. rewrite filter_map_comm. f_equal.
  apply filter_ext. intros r. now apply pd_eq_store_row.
Qed.

Lemma key_in_union_keys (raw : list dict) (r : dict) (k : string) (v : value) :
  In r raw -> dict_get k r = Some v -> In k (union_keys raw).
Proof.
  intros Hr Hk. apply In_union_keys. exists r. split; auto.
  unfold dict_has. now rewrite Hk.
Qed.

End FrameFacts.

(** ** RemoteTableClient *)

Section TableClient.

Import Grist Spec.

Lemma collect_rows_acc (recs : list record) (acc : list dict) :
  collect_rows recs acc = (acc ++ collect_rows recs [])%list.
Proof.
  revert acc. induction recs as [|r recs IH]; intros acc; simpl.
  - now rewrite app_nil_r.
  - destruct (rec_fields r) as [fields|].
    + rewrite IH. rewrite (IH [_]). now rewrite app_assoc.
    + apply IH.
Qed.

Lemma collect_rows_cons (r : record) (recs : list record) :
  collect_rows (r :: recs) [] =
  match rec_fields r with
  | Some fields => dict_set "id" (id_of r) fields :: collect_rows recs []
  | None => collect_rows recs []
  end.
Proof.
  simpl. destruct (rec_fields r) as [fields|]; auto.
  now rewrite collect_rows_acc.
Qed.

Lemma collect_rows_from (recs : list record) :
  Forall2 row_from (filter has_fields recs) (collect_rows recs []).
Proof.
  induction recs as [|r recs IH].
  - constructor.
  - rewrite collect_rows_cons. simpl. unfold has_fields at 1.
    destruct (rec_fields r) as [fields|] eqn:E; auto.
    constructor; auto.
    exists fields. repeat split; auto.
    + apply dict_get_set_eq.
    + intros k Hk. apply dict_get_set_ne. congruence.
Qed.

(** Every row handed to pandas carries an [id] key. *)
Lemma collect_rows_has_id (recs : list record) (row : dict) :
  In row (collect_rows recs []) -> dict_has "id" row = true.
Proof.
  induction recs as [|r recs IH]; [intros []|].
  rewrite collect_rows_cons.
  destruct (rec_fields r) as [fields|]; auto.
  intros [<-|H]; auto.
  unfold dict_has. now rewrite dict_get_set_eq.
Qed.

End TableClient.

Section TableClientSpec.

Import Grist Spec.

Variable P : casts.
Variable net : remote.

Lemma get_table_data_rows (c : GristClient) (table_id : string) (raw : list dict) :
  get_table_rows net c table_id = Ok raw ->
  get_table_data P net c table_id = Ok (pd_DataFrame P raw).
Proof. intros H. unfold get_table_data. now rewrite H. Qed.

Lemma get_table_data_raise (c : GristClient) (table_id : string) (e : exn) :
  get_table_rows net c table_id = Raise e ->
  get_table_data P net c table_id = Raise e.
Proof. intros H. unfold get_table_data. now rewrite H. Qed.

Lemma Forall2_map_r {A B : Type} (R : A -> B -> Prop) (f : A -> B) (l : list A) :
  (forall x, In x l -> R x (f x)) -> Forall2 R l (map f l).
Proof.
  induction l as [|x l IH]; intros H; simpl; constructor.
  - apply H. now left.
  - apply IH. intros y Hy. apply H. now right.
Qed.

(** C10. [get_table_data] keeps, in server order, exactly the records that
    have a [fields] map; each row is that map with the record's [id]
    attached ([None] when the record has none), and the frame has one row
    per kept record holding the row's cells.  A record without [fields]
    yields neither a row nor an error. *)
Theorem get_table_data_keeps_records_with_fields
    (c : GristClient) (table_id : string)
    (response : Http.response records_body) (recs : list record) :
  casts_sound P ->
  falsy_opt (doc_id c) = false ->
  get_records net (get_req c ("/tables/" ++ table_id ++ "/records")) = Ok response ->
  status_code response = 200 ->
  Http.json response = Some {| body_records := Some recs |} ->
  exists raw,
    get_table_rows net c table_id = Ok raw /\
    Forall2 row_from (filter has_fields recs) raw /\
    get_table_data P net c table_id = Ok (pd_DataFrame P raw) /\
    Forall2 (fun row stored =>
               forall k v, dict_get k row = Some v ->
                 exists v', dict_get k stored = Some v' /\ widens v v')
            raw (rows (pd_DataFrame P raw)).
Proof.
  intros [Hcol _] Hdoc Hget Hstatus Hjson.
  exists (collect_rows recs []).
  assert (Hrows : get_table_rows net c table_id = Ok (collect_rows recs [])).
  { unfold get_table_rows. rewrite Hdoc, Hget. simpl.
    rewrite Hstatus, Hjson. reflexivity. }
  repeat split; auto.
  - apply collect_rows_from.
  - now apply get_table_data_rows.
  - simpl. apply Forall2_map_r. intros row Hin k v Hk.
    rewrite dict_get_store_row by (eapply key_in_union_keys; eauto).
    eexists. split; [reflexivity|].
    unfold cell, get_default. rewrite Hk. apply Hcol.
Qed.

End TableClientSpec.

(** ** RecordResolver: locating the case row *)

Section CaseRow.

Import Grist Spec.

Variable P : casts.
Variable cfg : config.
Variable net : remote.
Hypothesis HP : casts_sound P.

Lemma email_is_pd_eq (email : string) (r : dict) :
  pd_eq (cell r COL_EMAIL) (PStr email) = true <-> email_is email r.
Proof.
  rewrite pd_eq_str. unfold email_is, cell, get_default.
  destruct (dict_get COL_EMAIL r) as [v|]; split; congruence.
Qed.

Lemma not_email_is_pd_eq (email : string) (r : dict) :
  ~ email_is email r -> pd_eq (cell r COL_EMAIL) (PStr email) = false.
Proof.
  intros H. destruct (pd_eq (cell r COL_EMAIL) (PStr email)) eqn:E; auto.
  apply email_is_pd_eq in E. contradiction.
Qed.

(** The record [r] as [rechercher_dossier_par_email] returns it. *)
Lemma selected_from_stored (raw : list dict) (r : dict) :
  In r raw ->
  selected_from r (format_result (to_dict (pd_DataFrame P raw) (store_row P raw r))).
Proof.
  intros Hin. destruct HP as [Hcol Hser]. split.
  - intros v Hv. unfold format_result, get_default, to_dict. simpl.
    rewrite dict_get_map_values.
    rewrite dict_get_store_row by (eapply key_in_union_keys; eauto). simpl.
    eapply widens_trans; [|apply Hser].
    unfold cell, get_default. rewrite Hv. apply Hcol.
  - intros k v Hk Hv. unfold format_result, to_dict. simpl.
    rewrite dict_get_without_ne by assumption.
    rewrite dict_get_map_values.
    rewrite dict_get_store_row by (eapply key_in_union_keys; eauto). simpl.
    eexists. split; [reflexivity|].
    eapply widens_trans; [|apply Hser].
    unfold cell, get_default. rewrite Hv. apply Hcol.
Qed.

Lemma rechercher_dossier_unfold (email : string) (raw : list dict) :
  get_table_rows net (get_grist_client cfg) (GRIST_PROJETS_TABLE cfg) = Ok raw ->
  rechercher_dossier_par_email P cfg net email =
  if negb (existsb (dict_has COL_EMAIL) raw) then inr SchemaMismatch
  else
    match filter (fun r => pd_eq (cell r COL_EMAIL) (PStr email)) raw with
    | [] => inr NotFound
    | r :: _ =>
      inl (format_result (to_dict (pd_DataFrame P raw) (store_row P raw r)))
    end.
Proof.
  intros Hfetch. unfold rechercher_dossier_par_email.
  rewrite (get_table_data_rows P net _ _ _ Hfetch). simpl.
  rewrite has_column_DataFrame.
  destruct (existsb (dict_has COL_EMAIL) raw) eqn:E; simpl; auto.
  unfold filter_eq. rewrite has_column_DataFrame, E. simpl.
  rewrite filter_map_comm.
  assert (Hc : In COL_EMAIL (union_keys raw)).
  { apply In_union_keys. now apply existsb_exists. }
  rewrite (filter_ext _ (fun r => pd_eq (cell r COL_EMAIL) (PStr email)))
    by (intros r; now apply pd_eq_store_row).
  destruct (filter _ raw); reflexivity.
Qed.

Lemma rechercher_dossier_fetch_error (email : string) (e : exn) :
  get_table_rows net (get_grist_client cfg) (GRIST_PROJETS_TABLE cfg) = Raise e ->
  rechercher_dossier_par_email P cfg net email = inr (DossierException e).
Proof.
  intros Hfetch. unfold rechercher_dossier_par_email.
  now rewrite (get_table_data_raise P net _ _ _ Hfetch).
Qed.

(** C3. Once the cases table is fetched: without an email column the
    lookup fails with the schema error; with the column but no row whose
    email field is the queried string it fails with the not-found error;
    otherwise it returns the first such row in server order. *)
Theorem rechercher_dossier_par_email_first_match (email : string) (raw : list dict) :
  get_table_rows net (get_grist_client cfg) (GRIST_PROJETS_TABLE cfg) = Ok raw ->
  ((forall r, In r raw -> dict_has COL_EMAIL r = false) ->
     rechercher_dossier_par_email P cfg net email = inr SchemaMismatch) /\
  ((exists r, In r raw /\ dict_has COL_EMAIL r = true) ->
   (forall r, In r raw -> ~ email_is email r) ->
     rechercher_dossier_par_email P cfg net email = inr NotFound) /\
  (forall before r after,
     raw = (before ++ r :: after)%list ->
     (forall r', In r' before -> ~ email_is email r') ->
     email_is email r ->
     exists row,
       rechercher_dossier_par_email P cfg net email = inl row /\
       selected_from r row /\
       email_is email (row_fields row)).
Proof.
  intros Hfetch. rewrite (rechercher_dossier_unfold email raw Hfetch).
  split; [|split].
  - intros Hno.
    destruct (existsb (dict_has COL_EMAIL) raw) eqn:E; auto.
    apply existsb_exists in E. destruct E as [r [Hin Hr]].
    rewrite (Hno r Hin) in Hr. discriminate.
  - intros Hcol Hno.
    apply existsb_exists in Hcol. rewrite Hcol. simpl.
    rewrite filter_none; auto.
    intros r Hin. apply not_email_is_pd_eq. auto.
  - intros before r after -> Hbefore Hr.
    assert (Hcol : existsb (dict_has COL_EMAIL) (before ++ r :: after) = true).
    { apply existsb_exists. exists r. split.
      - apply in_or_app. right. now left.
      - unfold dict_has. unfold email_is in Hr. now rewrite Hr. }
    rewrite Hcol. simpl.
    rewrite filter_first.
    + eexists. split; [reflexivity|].
      assert (Hin : In r (before ++ r :: after)).
      { apply in_or_app. right. now left. }
      pose proof (selected_from_stored _ _ Hin) as Hsel.
      split; auto.
      destruct Hsel as [_ Hfields].
      assert (Hne : COL_EMAIL <> "id") by discriminate.
      destruct (Hfields COL_EMAIL (PStr email) Hne Hr) as [v' [Hv' Hw]].
      unfold email_is. rewrite Hv'. f_equal. now apply widens_from_str.
    + intros y Hy. apply not_email_is_pd_eq. auto.
    + now apply email_is_pd_eq.
Qed.

End CaseRow.

(** ** RecordResolver: annotations and assembly *)

Section Resolution.

Import Grist Spec.

Variable P : casts.
Variable cfg : config.
Variable net : remote.
Hypothesis HP : casts_sound P.

Lemma rechercher_annotations_fetch_error (dossier_id : value) (e : exn) :
  get_table_rows net (get_grist_client cfg) (GRIST_ANNOTATIONS_TABLE cfg) = Raise e ->
  rechercher_annotations_par_id_dossier P cfg net dossier_id =
  inr (AnnotationException e).
Proof.
  intros Hfetch. unfold rechercher_annotations_par_id_dossier.
  now rewrite (get_table_data_raise P net _ _ _ Hfetch).
Qed.

Lemma rechercher_annotations_empty_table (dossier_id : value) :
  get_table_rows net (get_grist_client cfg) (GRIST_ANNOTATIONS_TABLE cfg) = Ok [] ->
  rechercher_annotations_par_id_dossier P cfg net dossier_id = inr EmptyAnnotations.
Proof.
  intros Hfetch. unfold rechercher_annotations_par_id_dossier.
  now rewrite (get_table_data_rows P net _ _ _ Hfetch).
Qed.

Lemma rechercher_annotations_no_column (dossier_id : value) (raw : list dict) :
  get_table_rows net (get_grist_client cfg) (GRIST_ANNOTATIONS_TABLE cfg) = Ok raw ->
  find_link_column (pd_DataFrame P raw) dossier_id = None ->
  exists e, rechercher_annotations_par_id_dossier P cfg net dossier_id = inr e.
Proof.
  intros Hfetch Hfind. unfold rechercher_annotations_par_id_dossier.
  rewrite (get_table_data_rows P net _ _ _ Hfetch). cbn [bind].
  destruct (empty (pd_DataFrame P raw)); [eexists; reflexivity|].
  rewrite Hfind. eexists; reflexivity.
Qed.

Lemma rechercher_annotations_no_row (dossier_id : value) (raw : list dict) :
  get_table_rows net (get_grist_client cfg) (GRIST_ANNOTATIONS_TABLE cfg) = Ok raw ->
  (forall r c, In r raw -> pd_eq (cell r c) dossier_id = false) ->
  exists e, rechercher_annotations_par_id_dossier P cfg net dossier_id = inr e.
Proof.
  intros Hfetch Hno. unfold rechercher_annotations_par_id_dossier.
  rewrite (get_table_data_rows P net _ _ _ Hfetch). cbn [bind].
  destruct (empty (pd_DataFrame P raw)); [eexists; reflexivity|].
  destruct (find_link_column (pd_DataFrame P raw) dossier_id) as [c|]; [|eexists; reflexivity].
  unfold filter_eq.
  destruct (has_column c (pd_DataFrame P raw)) eqn:Hc; cbn [bind try_except]; [|eexists; reflexivity].
  apply existsb_eqb_In in Hc. simpl in Hc.
  cbn [rows pd_DataFrame]. rewrite filter_map_comm.
  rewrite filter_none; simpl; [eexists; reflexivity|].
  intros r Hin. rewrite pd_eq_store_row by assumption. now apply Hno.
Qed.

(** What [valider_email_et_recuperer_donnees] returns once the case row is
    located. *)
Lemma valider_unfold (email : string) (row : remote_row) :
  rechercher_dossier_par_email P cfg net email = inl row ->
  valider_email_et_recuperer_donnees P cfg net email =
  match rechercher_annotations_par_id_dossier P cfg net (row_id row) with
  | inl ann =>
    inl (combine email (row_fields row)
           (str (get_default COL_MONTANT_DRAC (PStr "0") (row_fields ann)))
           (str (get_default COL_MONTANT_DRAAF (PStr "0") (row_fields ann))))
  | inr _ => inl (combine email (row_fields row) "0" "0")
  end.
Proof.
  intros Hrow. unfold valider_email_et_recuperer_donnees. rewrite Hrow.
  destruct (rechercher_annotations_par_id_dossier P cfg net (row_id row));
    reflexivity.
Qed.

Lemma valider_dossier_error (email : string) (e : dossier_error) :
  rechercher_dossier_par_email P cfg net email = inr e ->
  valider_email_et_recuperer_donnees P cfg net email = inr e.
Proof.
  intros Hrow. unfold valider_email_et_recuperer_donnees. now rewrite Hrow.
Qed.

(** A case row that exists is located. *)
Lemma rechercher_dossier_exists (email : string) (raw : list dict) :
  get_table_rows net (get_grist_client cfg) (GRIST_PROJETS_TABLE cfg) = Ok raw ->
  (exists r, In r raw /\ email_is email r) ->
  exists row, rechercher_dossier_par_email P cfg net email = inl row.
Proof.
  intros Hfetch [r [Hin Hr]].
  rewrite (rechercher_dossier_unfold P cfg net HP email raw Hfetch).
  assert (Hcol : existsb (dict_has COL_EMAIL) raw = true).
  { apply existsb_exists. exists r. split; auto.
    unfold dict_has. unfold email_is in Hr. now rewrite Hr. }
  rewrite Hcol. simpl.
  destruct (filter (fun r0 => pd_eq (cell r0 COL_EMAIL) (PStr email)) raw)
    as [|r0 l] eqn:E; [|eauto].
  assert (Hf : In r (filter (fun r0 => pd_eq (cell r0 COL_EMAIL) (PStr email)) raw)).
  { apply filter_In. split; auto. now apply email_is_pd_eq. }
  rewrite E in Hf. destruct Hf.
Qed.

(** C1. When the case row of the email exists, resolution succeeds, and
    whenever the annotation lookup fails, whatever the reason, both amounts
    of the record are ["0"]. *)
Theorem resolution_defaults_amounts (email : string) (raw : list dict) :
  get_table_rows net (get_grist_client cfg) (GRIST_PROJETS_TABLE cfg) = Ok raw ->
  (exists r, In r raw /\ email_is email r) ->
  exists row data,
    rechercher_dossier_par_email P cfg net email = inl row /\
    valider_email_et_recuperer_donnees P cfg net email = inl data /\
    forall e,
      rechercher_annotations_par_id_dossier P cfg net (row_id row) = inr e ->
      dict_get "Montant_DRAC" data = Some (PStr "0") /\
      dict_get "Montant_DRAAF" data = Some (PStr "0").
Proof.
  intros Hfetch Hex.
  destruct (rechercher_dossier_exists email raw Hfetch Hex) as [row Hrow].
  exists row. rewrite (valider_unfold email row Hrow).
  destruct (rechercher_annotations_par_id_dossier P cfg net (row_id row))
    as [ann|e0] eqn:Hann.
  - eexists. repeat split; auto; discriminate.
  - eexists. repeat split; auto.
Qed.

(** C2, as the code has it.  A failed fetch of the cases table is surfaced
    as a failure carrying the exception; a failed fetch of the annotations
    table is absorbed: when the case row exists, resolution still succeeds,
    with both amounts ["0"]. *)
Theorem fetch_failures_surface_for_cases_only (email : string) :
  (forall e,
     get_table_rows net (get_grist_client cfg) (GRIST_PROJETS_TABLE cfg) = Raise e ->
     valider_email_et_recuperer_donnees P cfg net email = inr (DossierException e)) /\
  (forall raw e,
     get_table_rows net (get_grist_client cfg) (GRIST_PROJETS_TABLE cfg) = Ok raw ->
     (exists r, In r raw /\ email_is email r) ->
     get_table_rows net (get_grist_client cfg) (GRIST_ANNOTATIONS_TABLE cfg) = Raise e ->
     exists row,
       rechercher_dossier_par_email P cfg net email = inl row /\
       valider_email_et_recuperer_donnees P cfg net email =
       inl (combine email (row_fields row) "0" "0")).
Proof.
  split.
  - intros e Hfetch. apply valider_dossier_error.
    now apply rechercher_dossier_fetch_error.
  - intros raw e Hfetch Hex Hann.
    destruct (rechercher_dossier_exists email raw Hfetch Hex) as [row Hrow].
    exists row. split; auto.
    rewrite (valider_unfold email row Hrow).
    now rewrite (rechercher_annotations_fetch_error (row_id row) e Hann).
Qed.

(** The record in terms of the row the case lookup returns, which has a
    cell for every column of the table: the record's email is the queried
    email, its case number is the row's [N_dossier] field, else its
    [number] field, else the empty string, and its name and project title
    are the row's fields, else the empty string. *)
Theorem resolution_assembles_record (email : string) (data : dict) :
  valider_email_et_recuperer_donnees P cfg net email = inl data ->
  exists row,
    rechercher_dossier_par_email P cfg net email = inl row /\
    dict_get "Email" data = Some (PStr email) /\
    dict_get "Numero_dossier" data =
      Some (match dict_get "N_dossier" (row_fields row) with
            | Some v => v
            | None =>
              match dict_get "number" (row_fields row) with
              | Some v => v
              | None => PStr ""
              end
            end) /\
    dict_get "Nom" data =
      Some (match dict_get "A_nom" (row_fields row) with
            | Some v => v
            | None => PStr ""
            end) /\
    dict_get "Titre_du_projet" data =
      Some (match dict_get "A_titre_du_projet" (row_fields row) with
            | Some v => v
            | None => PStr ""
            end).
Proof.
  intros Hok.
  destruct (rechercher_dossier_par_email P cfg net email) as [row|e] eqn:Hrow.
  - exists row. split; auto.
    rewrite (valider_unfold email row Hrow) in Hok.
    destruct (rechercher_annotations_par_id_dossier P cfg net (row_id row));
      inversion Hok; subst; repeat split; reflexivity.
  - rewrite (valider_dossier_error email e Hrow) in Hok. discriminate.
Qed.

End Resolution.

Section TableColumns.

Import Grist Spec.

Variable P : casts.
Variable cfg : config.
Variable net : remote.
Hypothesis HP : casts_sound P.

Lemma rechercher_dossier_first (email : string) (before after : list dict) (r : dict) :
  get_table_rows net (get_grist_client cfg) (GRIST_PROJETS_TABLE cfg) =
    Ok (before ++ r :: after)%list ->
  (forall r', In r' before -> ~ email_is email r') ->
  email_is email r ->
  rechercher_dossier_par_email P cfg net email =
  inl (format_result (to_dict (pd_DataFrame P (before ++ r :: after))
                              (store_row P (before ++ r :: after) r))).
Proof.
  intros Hfetch Hbefore Hr.
  rewrite (rechercher_dossier_unfold P cfg net HP email _ Hfetch).
  assert (Hcol : existsb (dict_has COL_EMAIL) (before ++ r :: after) = true).
  { apply existsb_exists. exists r. split.
    - apply in_or_app. right. now left.
    - unfold dict_has. unfold email_is in Hr. now rewrite Hr. }
  rewrite Hcol. simpl. rewrite filter_first; auto.
  - intros y Hy. apply not_email_is_pd_eq. auto.
  - now apply email_is_pd_eq.
Qed.

(** The fields of the returned row: one cell per column of the table. *)
Lemma row_fields_column_cell (raw : list dict) (r : dict) (k : string)
                             (fallback : value) :
  k <> "id" ->
  column_cell raw r k (eq fallback)
    (get_default k fallback
       (row_fields (format_result (to_dict (pd_DataFrame P raw) (store_row P raw r))))).
Proof.
  intros Hk. destruct HP as [Hcol Hser].
  unfold column_cell, get_default, format_result, to_dict. simpl.
  rewrite dict_get_without_ne by assumption.
  rewrite dict_get_map_values. unfold store_row. rewrite dict_get_tabulate.
  pose proof (has_column_DataFrame P raw k) as Hc.
  unfold has_column in Hc. simpl in Hc. rewrite Hc.
  destruct (existsb (dict_has k) raw); simpl; auto.
  eapply widens_trans; [apply Hcol | apply Hser].
Qed.

(** What the record holds in terms of the fetched table: the case number
    is the [N_dossier] cell of the first matching record when the table has
    that column, else its [number] cell when the table has that column,
    else the empty string; likewise for the name and the title.  A cell the
    record itself lacks is [nan] and triggers neither fallback nor
    default. *)
Lemma resolution_reads_table_columns
    (email : string) (before after : list dict) (r : dict) :
  get_table_rows net (get_grist_client cfg) (GRIST_PROJETS_TABLE cfg) =
    Ok (before ++ r :: after)%list ->
  (forall r', In r' before -> ~ email_is email r') ->
  email_is email r ->
  exists data numero nom titre,
    valider_email_et_recuperer_donnees P cfg net email = inl data /\
    dict_get "Numero_dossier" data = Some numero /\
    dict_get "Nom" data = Some nom /\
    dict_get "Titre_du_projet" data = Some titre /\
    column_cell (before ++ r :: after) r "N_dossier"
      (column_cell (before ++ r :: after) r "number" (eq (PStr ""))) numero /\
    column_cell (before ++ r :: after) r "A_nom" (eq (PStr "")) nom /\
    column_cell (before ++ r :: after) r "A_titre_du_projet" (eq (PStr "")) titre.
Proof.
  intros Hfetch Hbefore Hr.
  pose proof (rechercher_dossier_first email before after r Hfetch Hbefore Hr) as Hrow.
  set (raw := (before ++ r :: after)%list) in *.
  set (row := format_result (to_dict (pd_DataFrame P raw) (store_row P raw r))) in *.
  assert (Hdata : exists drac draaf,
            valider_email_et_recuperer_donnees P cfg net email =
            inl (combine email (row_fields row) drac draaf)).
  { rewrite (valider_unfold P cfg net email row Hrow).
    destruct (rechercher_annotations_par_id_dossier P cfg net (row_id row)); eauto. }
  destruct Hdata as [drac [draaf Hdata]].
  exists (combine email (row_fields row) drac draaf).
  do 3 eexists. split; [exact Hdata|].
  split; [reflexivity|]. split; [reflexivity|]. split; [reflexivity|].
  assert (Hn : "N_dossier" <> "id") by discriminate.
  assert (Hm : "number" <> "id") by discriminate.
  assert (Ha : "A_nom" <> "id") by discriminate.
  assert (Ht : "A_titre_du_projet" <> "id") by discriminate.
  split; [|split].
  - pose proof (row_fields_column_cell raw r "N_dossier"
                  (get_default COL_NUMERO_DOSSIER (PStr "") (row_fields row)) Hn) as H1.
    pose proof (row_fields_column_cell raw r "number" (PStr "") Hm) as H2.
    fold row in H1, H2. unfold column_cell in *.
    destruct (existsb (dict_has "N_dossier") raw); auto.
    rewrite <- H1. exact H2.
  - apply (row_fields_column_cell raw r "A_nom" (PStr "") Ha).
  - apply (row_fields_column_cell raw r "A_titre_du_projet" (PStr "") Ht).
Qed.

End TableColumns.

(** ** RecordResolver: the foreign-key column *)

Section LinkColumn.

Import Grist Spec.

Lemma probe_columns_find (candidates : list string) (df : DataFrame) :
  probe_columns candidates df = find (fun c => has_column c df) candidates.
Proof.
  induction candidates as [|c l IH]; simpl; auto.
  destruct (has_column c df); auto.
Qed.

Lemma scan_columns_find (cols : list string) (df : DataFrame) (dossier_id : value) :
  scan_columns cols df dossier_id =
  find (fun c => existsb (fun r => pd_eq (cell r c) dossier_id) (rows df)) cols.
Proof.
  induction cols as [|c l IH]; simpl; auto.
  unfold any_eq at 1.
  destruct (existsb (fun r => pd_eq (cell r c) dossier_id) (rows df)); auto.
Qed.

Lemma find_all_false {A : Type} (f : A -> bool) (l : list A) :
  (forall x, f x = false) -> find f l = None.
Proof.
  intros H. induction l as [|x l IH]; simpl; auto. now rewrite H.
Qed.

Lemma pd_eq_none_r (a : value) : pd_eq a PNone = false.
Proof. unfold pd_eq. simpl. now rewrite orb_true_r. Qed.

Lemma not_found_named (c : string) : c <> "" -> not_found (Some c) = false.
Proof. intros H. simpl. now apply String.eqb_neq. Qed.

(** As long as no column has the empty name, the column the code settles on
    is the one the specification describes; the guards on the row count and
    on a [None] identifier change nothing, since a scan finds no match in
    those cases. *)
Lemma find_link_column_refines (df : DataFrame) (dossier_id : value) :
  ~ In "" (columns df) ->
  find_link_column df dossier_id = link_column df dossier_id.
Proof.
  intros Hnamed. unfold find_link_column, link_column.
  rewrite probe_columns_find, scan_columns_find.
  destruct (find (fun c => has_column c df) dossier_id_columns) as [c|] eqn:Hprobe.
  - apply find_some in Hprobe. destruct Hprobe as [Hin _].
    rewrite not_found_named; auto.
    simpl in Hin. intuition (subst; discriminate).
  - cbn [not_found].
    destruct ((0 <? List.length (rows df))%nat && negb (is_none dossier_id)) eqn:G.
    + destruct (find _ (columns df)) as [c|] eqn:Hscan; auto.
      apply find_some in Hscan. destruct Hscan as [Hin _].
      rewrite not_found_named; auto.
      intros ->. contradiction.
    + cbn [not_found]. symmetry. apply find_all_false. intros c.
      apply andb_false_iff in G. destruct G as [G|G].
      * destruct (rows df); [reflexivity | discriminate].
      * destruct dossier_id; try discriminate.
        apply not_true_is_false. intros H.
        apply existsb_exists in H. destruct H as [r [_ H]].
        rewrite pd_eq_none_r in H. discriminate.
Qed.

(** C4, at the failing input.  The annotations hold the case identifier 7
    in a column whose name is empty and in no other column: the
    specification's column is that one, the code ends the scan on it and
    then reports that no column was found, so the amounts of the matching
    annotation are lost. *)
Theorem find_link_column_drops_unnamed_column :
  let df := pd_DataFrame object_casts (collect_rows [Examples.annotation_unnamed] []) in
  let net := Examples.serve (Examples.records_response [Examples.case_7])
                            (Examples.records_response [Examples.annotation_unnamed]) in
  link_column df (PNum 7 false) = Some "" /\
  find_link_column df (PNum 7 false) = None /\
  rechercher_annotations_par_id_dossier object_casts Examples.cfg net (PNum 7 false) =
    inr NoLinkColumn /\
  valider_email_et_recuperer_donnees object_casts Examples.cfg net "a@b.com" =
    inl [ ("Nom", PStr ""); ("Email", PStr "a@b.com");
          ("Titre_du_projet", PStr "Proj X"); ("Numero_dossier", PStr "D1");
          ("Montant_DRAC", PStr "0"); ("Montant_DRAAF", PStr "0") ].
Proof. repeat split; vm_compute; reflexivity. Qed.

End LinkColumn.

(** ** Instances *)

Section Instances.

Import Grist Spec Examples.

Lemma get_table_data_keeps_records_with_fields_witness :
  exists raw,
    get_table_rows (serve (records_response [case_7; bare_8]) timeout)
                   (get_grist_client cfg) (GRIST_PROJETS_TABLE cfg) = Ok raw /\
    Forall2 row_from (filter has_fields [case_7; bare_8]) raw /\
    get_table_data object_casts (serve (records_response [case_7; bare_8]) timeout)
                   (get_grist_client cfg) (GRIST_PROJETS_TABLE cfg) =
      Ok (pd_DataFrame object_casts raw) /\
    Forall2 (fun row stored =>
               forall k v, dict_get k row = Some v ->
                 exists v', dict_get k stored = Some v' /\ widens v v')
            raw (rows (pd_DataFrame object_casts raw)).
Proof.
  eapply (get_table_data_keeps_records_with_fields object_casts
            (serve (records_response [case_7; bare_8]) timeout)
            (get_grist_client cfg) (GRIST_PROJETS_TABLE cfg)).
  - exact object_casts_sound.
  - reflexivity.
  - reflexivity.
  - reflexivity.
  - reflexivity.
Defined.

Lemma rechercher_dossier_par_email_first_match_witness :
  exists row,
    rechercher_dossier_par_email object_casts cfg
      (serve (records_response [bare_8; case_7]) timeout) "a@b.com" = inl row /\
    selected_from (dict_set "id" (PNum 7 false)
                     [ ("usager_email", PStr "a@b.com");
                       ("A_titre_du_projet", PStr "Proj X");
                       ("N_dossier", PStr "D1") ]) row /\
    email_is "a@b.com" (row_fields row).
Proof.
  refine (proj2 (proj2 (rechercher_dossier_par_email_first_match object_casts cfg
            (serve (records_response [bare_8; case_7]) timeout) object_casts_sound
            "a@b.com" _ eq_refl)) [] _ [] eq_refl _ eq_refl).
  intros r' [].
Defined.

Lemma resolution_defaults_amounts_witness :
  exists row data,
    rechercher_dossier_par_email object_casts cfg
      (serve (records_response [case_7]) (records_response [])) "a@b.com" = inl row /\
    valider_email_et_recuperer_donnees object_casts cfg
      (serve (records_response [case_7]) (records_response [])) "a@b.com" = inl data /\
    forall e,
      rechercher_annotations_par_id_dossier object_casts cfg
        (serve (records_response [case_7]) (records_response [])) (row_id row) = inr e ->
      dict_get "Montant_DRAC" data = Some (PStr "0") /\
      dict_get "Montant_DRAAF" data = Some (PStr "0").
Proof.
  refine (resolution_defaults_amounts object_casts cfg
            (serve (records_response [case_7]) (records_response []))
            object_casts_sound "a@b.com" _ eq_refl _).
  eexists. split; [left; reflexivity | reflexivity].
Defined.

(** C2 fails as stated: the fetch of the annotations table raises, and the
    resolution still returns a success. *)
Lemma annotations_fetch_failure_not_surfaced :
  get_table_rows (serve (records_response [case_7]) timeout)
                 (get_grist_client cfg) (GRIST_ANNOTATIONS_TABLE cfg) =
    Raise (TransportError "Connection timed out") /\
  valider_email_et_recuperer_donnees object_casts cfg
    (serve (records_response [case_7]) timeout) "a@b.com" =
    inl [ ("Nom", PStr ""); ("Email", PStr "a@b.com");
          ("Titre_du_projet", PStr "Proj X"); ("Numero_dossier", PStr "D1");
          ("Montant_DRAC", PStr "0"); ("Montant_DRAAF", PStr "0") ].
Proof. split; vm_compute; reflexivity. Qed.

Lemma fetch_failures_surface_for_cases_only_witness :
  valider_email_et_recuperer_donnees object_casts cfg
    (serve timeout (records_response [annotation_3])) "a@b.com" =
    inr (DossierException (TransportError "Connection timed out")) /\
  exists row,
    rechercher_dossier_par_email object_casts cfg
      (serve (records_response [case_7]) timeout) "a@b.com" = inl row /\
    valider_email_et_recuperer_donnees object_casts cfg
      (serve (records_response [case_7]) timeout) "a@b.com" =
    inl (combine "a@b.com" (row_fields row) "0" "0").
Proof.
  split.
  - refine (proj1 (fetch_failures_surface_for_cases_only object_casts cfg
              (serve timeout (records_response [annotation_3]))
              object_casts_sound "a@b.com") _ eq_refl).
  - refine (proj2 (fetch_failures_surface_for_cases_only object_casts cfg
              (serve (records_response [case_7]) timeout)
              object_casts_sound "a@b.com") _ _ eq_refl _ eq_refl).
    eexists. split; [left; reflexivity | reflexivity].
Defined.

Lemma resolution_assembles_record_witness :
  exists row,
    rechercher_dossier_par_email object_casts cfg
      (serve (records_response [case_7]) (records_response [annotation_3]))
      "a@b.com" = inl row /\
    dict_get "Email"
      [ ("Nom", PStr ""); ("Email", PStr "a@b.com");
        ("Titre_du_projet", PStr "Proj X"); ("Numero_dossier", PStr "D1");
        ("Montant_DRAC", PStr "1000"); ("Montant_DRAAF", PStr "500") ]
      = Some (PStr "a@b.com") /\
    Some (PStr "D1") =
      Some (match dict_get "N_dossier" (row_fields row) with
            | Some v => v
            | None =>
              match dict_get "number" (row_fields row) with
              | Some v => v
              | None => PStr ""
              end
            end) /\
    Some (PStr "") =
      Some (match dict_get "A_nom" (row_fields row) with
            | Some v => v
            | None => PStr ""
            end) /\
    Some (PStr "Proj X") =
      Some (match dict_get "A_titre_du_projet" (row_fields row) with
            | Some v => v
            | None => PStr ""
            end).
Proof.
  exact (resolution_assembles_record object_casts cfg
           (serve (records_response [case_7]) (records_response [annotation_3]))
           "a@b.com" _ eq_refl).
Defined.

(** The example of the specification: the case and its annotation resolve
    to the full record, and the validator finds nothing missing. *)
Example resolution_example :
  valider_email_et_recuperer_donnees object_casts cfg
    (serve (records_response [case_7]) (records_response [annotation_3])) "a@b.com" =
    inl [ ("Nom", PStr ""); ("Email", PStr "a@b.com");
          ("Titre_du_projet", PStr "Proj X"); ("Numero_dossier", PStr "D1");
          ("Montant_DRAC", PStr "1000"); ("Montant_DRAAF", PStr "500") ] /\
  App.verifier_champs_obligatoires
    [ ("Nom", PStr ""); ("Email", PStr "a@b.com");
      ("Titre_du_projet", PStr "Proj X"); ("Numero_dossier", PStr "D1");
      ("Montant_DRAC", PStr "1000"); ("Montant_DRAAF", PStr "500") ] = Ok [].
Proof. split; vm_compute; reflexivity. Qed.

(** Records with different field sets: the first record has no [N_dossier]
    and no [A_nom], the second has both, so the frame has both columns and
    the first row reads [nan] in them; the [number] of the first record is
    not used. *)
Example resolution_reads_nan_for_missing_cells :
  valider_email_et_recuperer_donnees object_casts cfg
    (serve (records_response [case_1_number; case_2_dossier]) (records_response []))
    "a@b.com" =
    inl [ ("Nom", PNaN); ("Email", PStr "a@b.com");
          ("Titre_du_projet", PStr ""); ("Numero_dossier", PNaN);
          ("Montant_DRAC", PStr "0"); ("Montant_DRAAF", PStr "0") ].
Proof. vm_compute. reflexivity. Qed.

End Instances.

(** ** The email pattern *)

Section Regex.

Import Re.

Lemma append_nil_inv (s1 s2 : string) :
  (s1 ++ s2)%string = EmptyString -> s1 = EmptyString /\ s2 = EmptyString.
Proof. destruct s1; simpl; [auto | discriminate]. Qed.

Lemma lang_class_inv (p : ascii -> bool) (s : string) :
  lang (Class p) s -> exists c, s = String c EmptyString /\ p c = true.
Proof. intros H. inversion H; subst. eauto. Qed.

Lemma lang_cat_inv (r1 r2 : regex) (s : string) :
  lang (Cat r1 r2) s ->
  exists s1 s2, s = (s1 ++ s2)%string /\ lang r1 s1 /\ lang r2 s2.
Proof. intros H. inversion H; subst. eauto. Qed.

Lemma lang_nil_nullable (r : regex) (s : string) :
  lang r s -> s = EmptyString -> nullable r = true.
Proof.
  induction 1; intros E; simpl; auto; try discriminate.
  - apply append_nil_inv in E. destruct E. rewrite IHlang1, IHlang2; auto.
  - rewrite IHlang; auto.
  - rewrite IHlang; auto. apply orb_true_r.
Qed.

Lemma nullable_lang_nil (r : regex) : nullable r = true -> lang r EmptyString.
Proof.
  induction r; simpl; intros H; try discriminate.
  - constructor.
  - apply andb_true_iff in H. destruct H.
    change EmptyString with (EmptyString ++ EmptyString)%string.
    constructor; auto.
  - apply orb_true_iff in H. destruct H; [apply lang_alt_l | apply lang_alt_r]; auto.
  - constructor.
Qed.

Lemma deriv_sound (r : regex) (c : ascii) (s : string) :
  lang (deriv c r) s -> lang r (String c s).
Proof.
  revert s. induction r; simpl; intros s H.
  - inversion H.
  - inversion H.
  - destruct (p c) eqn:E; inversion H; subst. now constructor.
  - assert (Hcat : forall s0, lang (Cat (deriv c r1) r2) s0 ->
                              lang (Cat r1 r2) (String c s0)).
    { intros s0 H0. inversion H0; subst.
      change (String c (s1 ++ s2)) with (String c s1 ++ s2)%string.
      constructor; auto. }
    destruct (nullable r1) eqn:N; auto.
    inversion H; subst; auto.
    change (String c s) with (EmptyString ++ String c s)%string.
    constructor; auto. now apply nullable_lang_nil.
  - inversion H; subst; [apply lang_alt_l | apply lang_alt_r]; auto.
  - inversion H; subst.
    change (String c (s1 ++ s2)) with (String c s1 ++ s2)%string.
    constructor; auto.
Qed.

Lemma deriv_complete (r : regex) (s : string) :
  lang r s -> forall c s', s = String c s' -> lang (deriv c r) s'.
Proof.
  induction 1; intros c0 s' E; simpl.
  - discriminate.
  - inversion E; subst. rewrite H. constructor.
  - destruct s1 as [|c1 s1'].
    + simpl in E. subst s2.
      rewrite (lang_nil_nullable r1 EmptyString H eq_refl).
      apply lang_alt_r. now apply IHlang2.
    + simpl in E. inversion E; subst.
      assert (Hc : lang (Cat (deriv c0 r1) r2) (s1' ++ s2)).
      { constructor; auto. }
      destruct (nullable r1); auto. now apply lang_alt_l.
  - apply lang_alt_l. auto.
  - apply lang_alt_r. auto.
  - discriminate.
  - destruct s1 as [|c1 s1'].
    + simpl in E. now apply IHlang2.
    + simpl in E. inversion E; subst. constructor; auto.
Qed.

(** Matching by derivatives decides membership in the language. *)
Lemma fullmatch_lang (r : regex) (s : string) :
  fullmatch r s = true <-> lang r s.
Proof.
  revert r. induction s as [|c s IH]; intros r; simpl.
  - split; [apply nullable_lang_nil | intros H; now apply (lang_nil_nullable r EmptyString)].
  - rewrite IH. split; [apply deriv_sound | intros H; now apply (deriv_complete r (String c s))].
Qed.

Lemma lang_star_class (p : ascii -> bool) (s : string) :
  lang (Star (Class p)) s <-> all_chars p s = true.
Proof.
  split.
  - intros H. remember (Star (Class p)) as r eqn:Er.
    induction H; try discriminate; auto.
    inversion Er; subst.
    apply lang_class_inv in H. destruct H as [c [-> Hc]].
    simpl. rewrite Hc. simpl. auto.
  - induction s as [|c s IH]; simpl; intros H.
    + constructor.
    + apply andb_true_iff in H. destruct H as [Hc Hs].
      change (String c s) with (String c EmptyString ++ s)%string.
      constructor; auto. now constructor.
Qed.

Lemma lang_plus_class (p : ascii -> bool) (s : string) :
  lang (Plus (Class p)) s <-> s <> EmptyString /\ all_chars p s = true.
Proof.
  unfold Plus. split.
  - intros H. apply lang_cat_inv in H. destruct H as [s1 [s2 [-> [H1 H2]]]].
    apply lang_class_inv in H1. destruct H1 as [c [-> Hc]].
    apply lang_star_class in H2. simpl. rewrite Hc, H2.
    split; [discriminate | auto].
  - intros [Hne Hall]. destruct s as [|c s]; [contradiction|].
    simpl in Hall. apply andb_true_iff in Hall. destruct Hall as [Hc Hs].
    change (String c s) with (String c EmptyString ++ s)%string.
    constructor; [now constructor | now apply lang_star_class].
Qed.

Lemma lang_one_char (c0 : ascii) (s : string) :
  lang (Class (one_of (String c0 EmptyString))) s <-> s = String c0 EmptyString.
Proof.
  split.
  - intros H. apply lang_class_inv in H. destruct H as [c [-> Hc]].
    unfold one_of in Hc. simpl in Hc.
    destruct (Ascii.eqb c c0) eqn:E; [|discriminate].
    apply Ascii.eqb_eq in E. now subst.
  - intros ->. constructor. unfold one_of. simpl. now rewrite Ascii.eqb_refl.
Qed.

End Regex.

Section EmailPattern.

Import Re App Spec.

Lemma lang_tld (s : string) :
  lang (Cat (Class alpha) (Cat (Class alpha) (Star (Class alpha)))) s <->
  (2 <= String.length s)%nat /\ all_chars alpha s = true.
Proof.
  split.
  - intros H. apply lang_cat_inv in H. destruct H as [s1 [s2 [-> [H1 H2]]]].
    apply lang_cat_inv in H2. destruct H2 as [s3 [s4 [-> [H3 H4]]]].
    apply lang_class_inv in H1. destruct H1 as [c1 [-> Hc1]].
    apply lang_class_inv in H3. destruct H3 as [c3 [-> Hc3]].
    apply lang_star_class in H4. simpl. rewrite Hc1, Hc3, H4.
    split; [lia | reflexivity].
  - intros [Hlen Hall].
    destruct s as [|c1 [|c2 s]]; simpl in Hlen; try lia.
    simpl in Hall. apply andb_true_iff in Hall. destruct Hall as [H1 Hall].
    apply andb_true_iff in Hall. destruct Hall as [H2 Hall].
    change (String c1 (String c2 s))
      with (String c1 EmptyString ++ String c2 EmptyString ++ s)%string.
    constructor; [now constructor|].
    constructor; [now constructor | now apply lang_star_class].
Qed.

(** The pattern of [is_valid_email] is [local@domain.tld]. *)
Lemma email_pattern_shape (s : string) :
  fullmatch email_pattern s = true <-> email_shape s.
Proof.
  rewrite fullmatch_lang. unfold email_pattern, email_shape. split.
  - intros H.
    apply lang_cat_inv in H. destruct H as [local [s1 [-> [Hlocal H1]]]].
    apply lang_cat_inv in H1. destruct H1 as [at_ [s2 [-> [Hat H2]]]].
    apply lang_cat_inv in H2. destruct H2 as [domain [s3 [-> [Hdomain H3]]]].
    apply lang_cat_inv in H3. destruct H3 as [dot [tld [-> [Hdot Htld]]]].
    apply lang_plus_class in Hlocal. apply lang_plus_class in Hdomain.
    apply lang_one_char in Hat. apply lang_one_char in Hdot. subst.
    apply lang_tld in Htld.
    exists local, domain, tld. intuition auto.
  - intros [local [domain [tld [-> [Hl1 [Hl2 [Hd1 [Hd2 [Ht1 Ht2]]]]]]]]].
    constructor; [apply lang_plus_class; auto|].
    constructor; [now apply lang_one_char|].
    constructor; [apply lang_plus_class; auto|].
    constructor; [now apply lang_one_char|].
    apply lang_tld. auto.
Qed.



(** [is_valid_email] accepts a string of that shape, alone or followed by
    one newline, and nothing else. *)
Lemma is_valid_email_shape (s : string) :
  is_valid_email (PStr s) = Ok true <->
  email_shape s \/ exists s', chomp s = Some s' /\ email_shape s'.
Proof.
  unfold is_valid_email, match_anchored. split.
  - intros H. inversion H as [H1]. apply orb_true_iff in H1.
    destruct H1 as [H1|H1].
    + left. now apply email_pattern_shape.
    + right. destruct (chomp s) as [s'|]; [|discriminate].
      exists s'. split; auto. now apply email_pattern_shape.
  - intros [H|[s' [Hc H]]].
    + apply email_pattern_shape in H. now rewrite H.
    + rewrite Hc. apply email_pattern_shape in H. rewrite H.
      now rewrite orb_true_r.
Qed.

(** The examples of the specification. *)
Example is_valid_email_accepts :
  is_valid_email (PStr "a.b-c@d.e-f.com") = Ok true.
Proof. reflexivity. Qed.

Example is_valid_email_rejects :
  is_valid_email (PStr "not-an-email") = Ok false /\
  is_valid_email (PStr "") = Ok false /\
  is_valid_email (PStr "a@b") = Ok false.
Proof. repeat split. Qed.

End EmailPattern.

(** ** Validator *)

Section Validator.

Import App Spec.

Lemma append_if_only_if (cond : bool) (label : string) (champs : list string) :
  append_if cond label champs = (champs ++ only_if cond label)%list.
Proof. destruct cond; simpl; auto. now rewrite app_nil_r. Qed.

(** The list the validator returns, when it returns. *)
Lemma verifier_closed_form (form_data : dict) (champs : list string) :
  verifier_champs_obligatoires form_data = Ok champs ->
  exists entry drac draaf,
    email_entry (get_default "Email" (PStr "") form_data) entry /\
    py_int (get_default "Montant_DRAC" (PNum 0 false) form_data) = Ok drac /\
    py_int (get_default "Montant_DRAAF" (PNum 0 false) form_data) = Ok draaf /\
    champs =
      (entry
       ++ only_if (negb (truthy (get_default "Titre_du_projet" (PStr "") form_data)))
                  "Titre du projet"
       ++ only_if (negb (truthy (get_default "Numero_dossier" (PStr "") form_data)))
                  "Numéro de dossier"
       ++ only_if (drac <=? 0) "Montant DRAC"
       ++ only_if (draaf <=? 0) "Montant DRAAF")%list.
Proof.
  unfold verifier_champs_obligatoires.
  set (email := get_default "Email" (PStr "") form_data).
  set (titre := get_default "Titre_du_projet" (PStr "") form_data).
  set (numero := get_default "Numero_dossier" (PStr "") form_data).
  intros H.
  assert (Hentry : exists entry,
            email_entry email entry /\
            (if negb (truthy email) then Ok ([] ++ ["Email"])%list
             else valid <- is_valid_email email ;;
                  Ok (append_if (negb valid) "Email (format invalide)" [])) = Ok entry).
  { unfold email_entry.
    destruct (truthy email) eqn:Ht; simpl in *.
    - destruct (is_valid_email email) as [[|]|e] eqn:Hv; simpl in *;
        try discriminate; eexists; split; eauto 8.
    - eexists; split; eauto. }
  destruct Hentry as [entry [Hentry Heq]].
  rewrite Heq in H. cbn [bind] in H.
  destruct (py_int (get_default "Montant_DRAC" (PNum 0 false) form_data))
    as [drac|] eqn:Hdrac; cbn [bind] in H; [|discriminate].
  destruct (py_int (get_default "Montant_DRAAF" (PNum 0 false) form_data))
    as [draaf|] eqn:Hdraaf; cbn [bind] in H; [|discriminate].
  exists entry, drac, draaf. repeat split; auto.
  inversion H. rewrite !append_if_only_if, <- !app_assoc. reflexivity.
Qed.






End Validator.

Section ValidatorAmounts.

Import App Spec.

(** An amount label is in the list exactly when the amount read is not
    positive. *)
Lemma amount_labels (form_data : dict) (champs : list string) :
  verifier_champs_obligatoires form_data = Ok champs ->
  exists drac draaf,
    py_int (get_default "Montant_DRAC" (PNum 0 false) form_data) = Ok drac /\
    py_int (get_default "Montant_DRAAF" (PNum 0 false) form_data) = Ok draaf /\
    (In "Montant DRAC" champs <-> drac <= 0) /\
    (In "Montant DRAAF" champs <-> draaf <= 0).
Proof.
  intros H.
  destruct (verifier_closed_form form_data champs H)
    as [entry [drac [draaf [Hentry [Hdrac [Hdraaf Heq]]]]]].
  exists drac, draaf. split; [assumption|]. split; [assumption|].
  rewrite Heq, !in_app_iff.
  destruct (Z.leb_spec drac 0); destruct (Z.leb_spec draaf 0);
    destruct Hentry as [[_ ->]|[[_ [_ ->]]|[_ [_ ->]]]];
    destruct (truthy (get_default "Titre_du_projet" (PStr "") form_data));
    destruct (truthy (get_default "Numero_dossier" (PStr "") form_data));
    simpl; split; split; intros; try lia; intuition discriminate.
Qed.

Lemma verifier_with_amounts (form_data : dict) (s : string) (drac draaf : Z) :
  get_default "Email" (PStr "") form_data = PStr s ->
  py_int (get_default "Montant_DRAC" (PNum 0 false) form_data) = Ok drac ->
  py_int (get_default "Montant_DRAAF" (PNum 0 false) form_data) = Ok draaf ->
  exists champs, verifier_champs_obligatoires form_data = Ok champs.
Proof.
  intros Hs Hdrac Hdraaf. unfold verifier_champs_obligatoires.
  rewrite Hs, Hdrac, Hdraaf.
  destruct (negb (truthy (PStr s))); cbn [bind is_valid_email]; eexists; reflexivity.
Qed.

(** C7, as the code has it.  For a record whose email is a string, the
    validator returns normally whenever each amount is absent or is a value
    [int] accepts; an absent amount counts as 0, and an amount is reported
    exactly when its integer value is 0 or less.  An amount [int] refuses
    makes the validator raise what [int] raised. *)
Theorem verifier_amounts_parsed_by_int (form_data : dict) (s : string) :
  get_default "Email" (PStr "") form_data = PStr s ->
  ((forall v, dict_get "Montant_DRAC" form_data = Some v -> exists z, py_int v = Ok z) ->
   (forall v, dict_get "Montant_DRAAF" form_data = Some v -> exists z, py_int v = Ok z) ->
   exists champs,
     verifier_champs_obligatoires form_data = Ok champs /\
     (dict_get "Montant_DRAC" form_data = None -> In "Montant DRAC" champs) /\
     (dict_get "Montant_DRAAF" form_data = None -> In "Montant DRAAF" champs) /\
     (forall v z, dict_get "Montant_DRAC" form_data = Some v -> py_int v = Ok z ->
        (In "Montant DRAC" champs <-> z <= 0)) /\
     (forall v z, dict_get "Montant_DRAAF" form_data = Some v -> py_int v = Ok z ->
        (In "Montant DRAAF" champs <-> z <= 0))) /\
  (forall e,
     py_int (get_default "Montant_DRAC" (PNum 0 false) form_data) = Raise e ->
     verifier_champs_obligatoires form_data = Raise e) /\
  (forall z e,
     py_int (get_default "Montant_DRAC" (PNum 0 false) form_data) = Ok z ->
     py_int (get_default "Montant_DRAAF" (PNum 0 false) form_data) = Raise e ->
     verifier_champs_obligatoires form_data = Raise e).
Proof.
  intros Hs. split.
  - intros Hdrac Hdraaf.
    assert (Ha : exists drac,
              py_int (get_default "Montant_DRAC" (PNum 0 false) form_data) = Ok drac).
    { unfold get_default.
      destruct (dict_get "Montant_DRAC" form_data) as [v|]; [eauto|].
      exists 0. reflexivity. }
    assert (Hb : exists draaf,
              py_int (get_default "Montant_DRAAF" (PNum 0 false) form_data) = Ok draaf).
    { unfold get_default.
      destruct (dict_get "Montant_DRAAF" form_data) as [v|]; [eauto|].
      exists 0. reflexivity. }
    destruct Ha as [drac Ha]. destruct Hb as [draaf Hb].
    destruct (verifier_with_amounts form_data s drac draaf Hs Ha Hb) as [champs Hok].
    exists champs. split; [assumption|].
    destruct (amount_labels form_data champs Hok)
      as [drac' [draaf' [Ha' [Hb' [Hia Hib]]]]].
    rewrite Ha in Ha'. rewrite Hb in Hb'. inversion Ha'. inversion Hb'. subst.
    unfold get_default in Ha, Hb.
    repeat split.
    + intros Hnone. rewrite Hnone in Ha. inversion Ha. subst. apply Hia. lia.
    + intros Hnone. rewrite Hnone in Hb. inversion Hb. subst. apply Hib. lia.
    + rewrite H in Ha. rewrite Ha in H0. inversion H0. subst. apply Hia.
    + rewrite H in Ha. rewrite Ha in H0. inversion H0. subst. apply Hia.
    + rewrite H in Hb. rewrite Hb in H0. inversion H0. subst. apply Hib.
    + rewrite H in Hb. rewrite Hb in H0. inversion H0. subst. apply Hib.
  - split.
    + intros e He. unfold verifier_champs_obligatoires. rewrite Hs, He.
      destruct (negb (truthy (PStr s))); reflexivity.
    + intros z e Hz He. unfold verifier_champs_obligatoires. rewrite Hs, Hz, He.
      destruct (negb (truthy (PStr s))); reflexivity.
Qed.

(** C7 fails as stated: a non-numeric amount makes the validator raise. *)
Lemma verifier_raises_on_non_numeric_amount :
  verifier_champs_obligatoires
    [ ("Nom", PStr ""); ("Email", PStr "a@b.com");
      ("Titre_du_projet", PStr "Proj X"); ("Numero_dossier", PStr "D1");
      ("Montant_DRAC", PStr "abc"); ("Montant_DRAAF", PStr "500") ] =
  Raise (ValueError "invalid literal for int() with base 10").
Proof. vm_compute. reflexivity. Qed.

Lemma verifier_amounts_parsed_by_int_witness :
  exists champs,
    verifier_champs_obligatoires
      [ ("Email", PStr "a@b.com"); ("Montant_DRAAF", PStr " -12 ") ] = Ok champs /\
    (dict_get "Montant_DRAC" [ ("Email", PStr "a@b.com"); ("Montant_DRAAF", PStr " -12 ") ]
       = None -> In "Montant DRAC" champs) /\
    (dict_get "Montant_DRAAF" [ ("Email", PStr "a@b.com"); ("Montant_DRAAF", PStr " -12 ") ]
       = None -> In "Montant DRAAF" champs) /\
    (forall v z,
       dict_get "Montant_DRAC" [ ("Email", PStr "a@b.com"); ("Montant_DRAAF", PStr " -12 ") ]
         = Some v -> py_int v = Ok z -> (In "Montant DRAC" champs <-> z <= 0)) /\
    (forall v z,
       dict_get "Montant_DRAAF" [ ("Email", PStr "a@b.com"); ("Montant_DRAAF", PStr " -12 ") ]
         = Some v -> py_int v = Ok z -> (In "Montant DRAAF" champs <-> z <= 0)).
Proof.
  refine (proj1 (verifier_amounts_parsed_by_int
            [ ("Email", PStr "a@b.com"); ("Montant_DRAAF", PStr " -12 ") ]
            "a@b.com" eq_refl) _ _).
  - intros v Hv. discriminate Hv.
  - intros v Hv. inversion Hv. exists (-12). reflexivity.
Defined.


End ValidatorAmounts.

(** ** Listing the tables *)

Section ListTables.

Import Grist.

Variable net : remote.

(** C8, as the code has it.  [list_tables] raises when the document id is
    unset, when the request raises, on any status other than 200 and on a
    body that is not JSON; a bare list is returned as it is, an object with
    a [tables] key yields the value of that key, and any other body,
    including an object without [tables] (with or without [docs]), raises. *)
Theorem list_tables_normalizes (c : GristClient) :
  (falsy_opt (doc_id c) = true -> list_tables net c = Raise DocIdRequired) /\
  (falsy_opt (doc_id c) = false ->
   (forall e, get_json net (get_req c "/tables") = Raise e ->
      list_tables net c = Raise e) /\
   (forall response, get_json net (get_req c "/tables") = Ok response ->
      (status_code response <> 200 ->
         list_tables net c =
         Raise (HttpStatusError (status_code response) (text response))) /\
      (status_code response = 200 ->
         match Http.json response with
         | None => list_tables net c = Raise JsonDecodeError
         | Some (JArr items) => list_tables net c = Ok (JArr items)
         | Some (JObj o) =>
           match member "tables" o with
           | Some tables => list_tables net c = Ok tables
           | None => list_tables net c = Raise UnexpectedFormat
           end
         | Some _ => list_tables net c = Raise UnexpectedFormat
         end))).
Proof.
  split.
  - intros Hdoc. unfold list_tables. now rewrite Hdoc.
  - intros Hdoc. split.
    + intros e He. unfold list_tables. now rewrite Hdoc, He.
    + intros response Hr. split.
      * intros Hs. unfold list_tables. rewrite Hdoc, Hr. cbn [bind].
        apply Z.eqb_neq in Hs. now rewrite Hs.
      * intros Hs. unfold list_tables. rewrite Hdoc, Hr. cbn [bind].
        rewrite Hs. simpl.
        destruct (Http.json response) as [[| | | | |o]|]; auto.
        destruct (member "tables" o); auto.
Qed.

End ListTables.

Section ListTablesInstances.

Import Grist Examples.

(** C8 fails as stated: an object with a [docs] key and an object with
    neither key both make [list_tables] raise. *)
Lemma list_tables_rejects_objects_without_tables :
  list_tables
    (serve_tables (Ok {| status_code := 200; text := "";
                         json := Some (JObj [("docs", JArr [JObj [("id", JStr "T1")]])]) |}))
    (get_grist_client cfg) = Raise UnexpectedFormat /\
  list_tables
    (serve_tables (Ok {| status_code := 200; text := "";
                         json := Some (JObj [("id", JStr "T1")]) |}))
    (get_grist_client cfg) = Raise UnexpectedFormat.
Proof. split; vm_compute; reflexivity. Qed.

Lemma list_tables_normalizes_witness :
  list_tables
    (serve_tables (Ok {| status_code := 200; text := "";
                         json := Some (JObj [("tables", JArr [JObj [("id", JStr "T1")]])]) |}))
    (get_grist_client cfg) = Ok (JArr [JObj [("id", JStr "T1")]]).
Proof.
  exact (proj2 (proj2 (proj2 (list_tables_normalizes
           (serve_tables (Ok {| status_code := 200; text := "";
              json := Some (JObj [("tables", JArr [JObj [("id", JStr "T1")]])]) |}))
           (get_grist_client cfg)) eq_refl) _ eq_refl) eq_refl).
Defined.

End ListTablesInstances.

(** ** Prefill link *)

Section PrefillLink.

Import Prefill.

Variable API_TOKEN : option string.
Variable post : request dict -> result (response json_value).

(** C9, as the code has it.  Without a token the call fails at once and
    sends nothing.  With a token exactly one request is sent; a request
    that raises gives a failure carrying the exception; a status other than
    201 gives a failure carrying the response text; a 201 whose body is a
    JSON object gives the value of its [dossier_url] key, the empty string
    when the key is absent; a 201 whose body is not a JSON object gives a
    failure carrying the exception; and a success only comes from a 201. *)
Theorem generate_prefilled_url_outcomes (data_dict : dict) (demarche_id : string) :
  (falsy_opt API_TOKEN = true ->
     generate_prefilled_url API_TOKEN post data_dict demarche_id =
     (inr MissingCredential, [])) /\
  (falsy_opt API_TOKEN = false ->
   exists req,
     snd (generate_prefilled_url API_TOKEN post data_dict demarche_id) = [req] /\
     payload req = map_data data_dict /\
     (forall e, post req = Raise e ->
        fst (generate_prefilled_url API_TOKEN post data_dict demarche_id) =
        inr (PrefillException e)) /\
     (forall response, post req = Ok response ->
        (status_code response <> 201 ->
           fst (generate_prefilled_url API_TOKEN post data_dict demarche_id) =
           inr (PrefillApiError (text response))) /\
        (status_code response = 201 ->
           match Http.json response with
           | Some (JObj o) =>
             fst (generate_prefilled_url API_TOKEN post data_dict demarche_id) =
             inl (match member "dossier_url" o with
                  | Some u => u
                  | None => JStr ""
                  end)
           | _ =>
             exists e,
               fst (generate_prefilled_url API_TOKEN post data_dict demarche_id) =
               inr (PrefillException e)
           end) /\
        (forall u,
           fst (generate_prefilled_url API_TOKEN post data_dict demarche_id) = inl u ->
           status_code response = 201))).
Proof.
  split.
  - intros Htok. unfold generate_prefilled_url. now rewrite Htok.
  - intros Htok. unfold generate_prefilled_url. rewrite Htok.
    eexists. split; [|split; [|split]].
    + destruct (post _) as [response|e]; [|reflexivity].
      destruct (status_code response =? 201); [|reflexivity].
      destruct (dossier_url response); reflexivity.
    + reflexivity.
    + intros e He. now rewrite He.
    + intros response Hr. rewrite Hr. split; [|split].
      * intros Hs. apply Z.eqb_neq in Hs. now rewrite Hs.
      * intros Hs. rewrite Hs. simpl. unfold dossier_url.
        destruct (Http.json response) as [[| | | | |o]|]; simpl; eauto.
        destruct (member "dossier_url" o); reflexivity.
      * intros u Hu.
        destruct (status_code response =? 201) eqn:Hs.
        -- now apply Z.eqb_eq.
        -- discriminate.
Qed.

End PrefillLink.

Section PrefillInstances.

Import Prefill.

(** C9 fails as stated: the status is 201 and the call is a failure,
    because the body is not JSON. *)
Lemma generate_prefilled_url_201_without_json_fails :
  generate_prefilled_url (Some "token")
    (fun _ => Ok {| status_code := 201; text := "<html>created</html>"; json := None |})
    [ ("Email", PStr "a@b.com") ] "111570" =
  (inr (PrefillException JsonDecodeError),
   [ {| url := "https://www.demarches-simplifiees.fr/api/public/v1/demarches/111570/dossiers";
        authorization := "Bearer token";
        payload := [ ("champ_Q2hhbXAtNjA3OTc1", PStr "a@b.com") ] |} ]).
Proof. vm_compute. reflexivity. Qed.

Lemma generate_prefilled_url_outcomes_witness :
  generate_prefilled_url None
    (fun _ => Ok {| status_code := 201; text := ""; json := Some (JObj []) |})
    [ ("Email", PStr "a@b.com") ] "111570" = (inr MissingCredential, []) /\
  exists req,
    snd (generate_prefilled_url (Some "token")
           (fun _ => Ok {| status_code := 201; text := "";
                           json := Some (JObj [("dossier_url", JStr "https://x/y")]) |})
           [ ("Email", PStr "a@b.com") ] "111570") = [req] /\
    payload req = map_data [ ("Email", PStr "a@b.com") ].
Proof.
  split.
  - exact (proj1 (generate_prefilled_url_outcomes None
             (fun _ => Ok {| status_code := 201; text := ""; json := Some (JObj []) |})
             [ ("Email", PStr "a@b.com") ] "111570") eq_refl).
  - destruct (proj2 (generate_prefilled_url_outcomes (Some "token")
             (fun _ => Ok {| status_code := 201; text := "";
                             json := Some (JObj [("dossier_url", JStr "https://x/y")]) |})
             [ ("Email", PStr "a@b.com") ] "111570") eq_refl) as [req [H1 [H2 _]]].
    exists req. split; assumption.
Defined.

End PrefillInstances.

(** * Further properties of the code *)

(** ** The client *)

Section ClientFacts.

Import Grist Diagnostics.

Lemma rstrip_slash_fixed (s : string) :
  ends_with_slash s = false -> rstrip_slash s = s.
Proof.
  induction s as [|c rest IH]; simpl; auto.
  destruct rest as [|c' rest'].
  - intros H. simpl. now rewrite H.
  - intros H. rewrite (IH H). reflexivity.
Qed.

(** X1. [GristClient.__init__] removes from the base URL its trailing
    slashes and nothing else: the URL is the stored one followed by
    slashes, the stored one does not end with a slash, and stripping
    again changes nothing. *)
Theorem rstrip_slash_strips_trailing_slashes (s : string) :
  (exists n, s = rstrip_slash s ++ slashes n) /\
  ends_with_slash (rstrip_slash s) = false /\
  rstrip_slash (rstrip_slash s) = rstrip_slash s.
Proof.
  assert (H : (exists n, s = rstrip_slash s ++ slashes n) /\
              ends_with_slash (rstrip_slash s) = false).
  { induction s as [|c rest [[n Hn] He]]; simpl.
    - split; [exists O; reflexivity | reflexivity].
    - destruct (rstrip_slash rest) as [|c' r'] eqn:E.
      + simpl in Hn. destruct (Ascii.eqb c "/") eqn:Ec.
        * apply Ascii.eqb_eq in Ec. subst c. split; [|reflexivity].
          exists (S n). simpl. now rewrite <- Hn.
        * split; [|simpl; exact Ec].
          exists n. simpl. now rewrite <- Hn.
      + split; [|exact He].
        exists n. simpl. simpl in Hn. now rewrite <- Hn. }
  destruct H as [H1 H2]. repeat split; auto.
  now apply rstrip_slash_fixed.
Qed.

Variable P : casts.
Variable net : remote.

(** X2. [get_table_data] returns a frame only when the document id is
    set, the request was answered with status 200 and the body has a
    [records] entry; the frame is then built from the rows gathered from
    that entry. *)
Theorem get_table_data_success_inv
    (c : GristClient) (table_id : string) (df : DataFrame) :
  get_table_data P net c table_id = Ok df ->
  falsy_opt (doc_id c) = false /\
  exists response recs,
    get_records net (get_req c ("/tables/" ++ table_id ++ "/records")) = Ok response /\
    status_code response = 200 /\
    Http.json response = Some {| body_records := Some recs |} /\
    df = pd_DataFrame P (collect_rows recs []).
Proof.
  unfold get_table_data, get_table_rows.
  destruct (falsy_opt (doc_id c)); [discriminate|].
  destruct (get_records net _) as [response|e] eqn:Hget; [|discriminate].
  cbn [bind].
  destruct (status_code response =? 200) eqn:Hs; [|discriminate].
  cbn [negb].
  destruct (Http.json response) as [[[recs|]]|] eqn:Hj; try discriminate.
  cbn [body_records bind]. intros H. inversion H.
  split; [reflexivity|]. exists response, recs.
  apply Z.eqb_eq in Hs. auto.
Qed.

(** X3. [list_documents] needs no document id and never fails: a request
    that raises, a status other than 200 and a body that is not JSON all
    give the empty list; a list is returned as it is, an object with a
    [docs] key gives the value of that key, and any other body is wrapped
    in a one-item list. *)
Theorem list_documents_normalizes (c : GristClient) :
  (forall d,
     list_documents net {| base_url := base_url c; api_key := api_key c; doc_id := d |} =
     list_documents net c) /\
  (forall e, get_json net (docs_req c) = Raise e -> list_documents net c = JArr []) /\
  (forall response, get_json net (docs_req c) = Ok response ->
     (status_code response <> 200 -> list_documents net c = JArr []) /\
     (status_code response = 200 ->
        list_documents net c =
        match Http.json response with
        | None => JArr []
        | Some (JArr items) => JArr items
        | Some (JObj o) =>
          match member "docs" o with
          | Some docs => docs
          | None => JArr [JObj o]
          end
        | Some data => JArr [data]
        end)).
Proof.
  split; [|split].
  - intros d. reflexivity.
  - intros e He. unfold list_documents. now rewrite He.
  - intros response Hr. unfold list_documents. rewrite Hr. cbn [bind]. split.
    + intros Hs. apply Z.eqb_neq in Hs. now rewrite Hs.
    + intros Hs. rewrite Hs. simpl.
      destruct (Http.json response) as [[| | | | |o]|]; auto.
      destruct (member "docs" o); auto.
Qed.

End ClientFacts.

Section ClientInstances.

Import Grist Diagnostics Examples.

Lemma get_table_data_success_inv_witness :
  falsy_opt (doc_id (get_grist_client cfg)) = false /\
  exists response recs,
    get_records (serve (records_response [case_7; bare_8]) timeout)
      (get_req (get_grist_client cfg)
         ("/tables/" ++ GRIST_PROJETS_TABLE cfg ++ "/records")) = Ok response /\
    status_code response = 200 /\
    Http.json response = Some {| body_records := Some recs |} /\
    pd_DataFrame object_casts (collect_rows [case_7; bare_8] []) =
    pd_DataFrame object_casts (collect_rows recs []).
Proof.
  exact (get_table_data_success_inv object_casts
           (serve (records_response [case_7; bare_8]) timeout)
           (get_grist_client cfg) (GRIST_PROJETS_TABLE cfg) _ eq_refl).
Defined.

End ClientInstances.

Section ConnectionTest.

Import Grist Diagnostics.

Lemma traverse_Forall2 {A B : Type} (f : A -> result B) (l : list A) (ys : list B) :
  Forall2 (fun x y => f x = Ok y) l ys -> traverse f l = Ok ys.
Proof.
  induction 1 as [|x y l ys Hx _ IH]; simpl; auto.
  now rewrite Hx, IH.
Qed.

Lemma traverse_as_str_refuses (l : list json_value) (v : json_value) :
  In v l -> (forall s, v <> JStr s) ->
  exists msg, traverse as_str l = Raise (TypeError msg).
Proof.
  intros Hin Hv. induction l as [|x l IH]; [destruct Hin|].
  simpl. destruct x as [| | |s| |]; simpl; eauto.
  destruct Hin as [E|Hin]; [symmetry in E; now elim (Hv s)|].
  destruct (IH Hin) as [msg Hmsg]. rewrite Hmsg. simpl. eauto.
Qed.

Variable cfg : config.
Variable net : remote.

(** X4. [test_grist_connection] reports the exception of [list_tables]
    when it raises; when the tables come as a list of objects that each
    have a string [id], it succeeds with the ids joined by a comma and a
    space, in the order of the list; and when every table is an object but
    one of them has no string [id], the test fails with a [TypeError]
    although the service answered. *)
Theorem test_grist_connection_outcomes :
  (forall e,
     list_tables net (get_grist_client cfg) = Raise e ->
     test_grist_connection cfg net = inr e) /\
  (forall items names,
     list_tables net (get_grist_client cfg) = Ok (JArr items) ->
     Forall2 (fun item name =>
                exists o, item = JObj o /\ member "id" o = Some (JStr name))
             items names ->
     test_grist_connection cfg net =
     inl ("Connexion réussie à Grist. Tables disponibles: " ++ join ", " names)) /\
  (forall items ids,
     list_tables net (get_grist_client cfg) = Ok (JArr items) ->
     Forall2 (fun item id => get_id item = Ok id) items ids ->
     (exists id, In id ids /\ forall s, id <> JStr s) ->
     exists msg, test_grist_connection cfg net = inr (TypeError msg)).
Proof.
  split; [|split].
  - intros e He. unfold test_grist_connection. now rewrite He.
  - intros items names Hl Hnames. unfold test_grist_connection.
    rewrite Hl. cbn [bind py_iter].
    rewrite (traverse_Forall2 get_id items (map JStr names)).
    + cbn [bind].
      rewrite (traverse_Forall2 as_str (map JStr names) names); [reflexivity|].
      clear. induction names; simpl; constructor; auto.
    + clear Hl. induction Hnames as [|item name items names [o [-> Ho]] _ IH];
        simpl; constructor; auto.
      simpl. now rewrite Ho.
  - intros items ids Hl Hids [id [Hin Hid]]. unfold test_grist_connection.
    rewrite Hl. cbn [bind py_iter].
    rewrite (traverse_Forall2 get_id items ids Hids). cbn [bind].
    destruct (traverse_as_str_refuses ids id Hin Hid) as [msg Hmsg].
    rewrite Hmsg. cbn [bind]. eexists. reflexivity.
Qed.

End ConnectionTest.

Section ConnectionTestInstances.

Import Grist Diagnostics Examples.

Lemma test_grist_connection_outcomes_witness :
  test_grist_connection cfg
    (serve_tables (Ok {| status_code := 200; text := "";
       json := Some (JObj [("tables",
                 JArr [JObj [("id", JStr "Dossiers")];
                       JObj [("id", JStr "Annotations")]])]) |})) =
  inl "Connexion réussie à Grist. Tables disponibles: Dossiers, Annotations".
Proof.
  refine (proj1 (proj2 (test_grist_connection_outcomes cfg
           (serve_tables (Ok {| status_code := 200; text := "";
              json := Some (JObj [("tables",
                        JArr [JObj [("id", JStr "Dossiers")];
                              JObj [("id", JStr "Annotations")]])]) |}))))
          _ ["Dossiers"; "Annotations"] eq_refl _).
  repeat constructor; eexists; split; reflexivity.
Defined.

End ConnectionTestInstances.

(** ** Annotations *)

Section AnnotationFacts.

Import Grist Spec.

Variable P : casts.
Variable cfg : config.
Variable net : remote.
Hypothesis HP : casts_sound P.

Lemma get_table_rows_inv (c : GristClient) (table_id : string) (raw : list dict) :
  get_table_rows net c table_id = Ok raw ->
  exists recs, raw = collect_rows recs [].
Proof.
  unfold get_table_rows.
  destruct (falsy_opt (doc_id c)); [discriminate|].
  destruct (get_records net _) as [response|e]; [|discriminate]. cbn [bind].
  destruct (negb (status_code response =? 200)); [discriminate|].
  destruct (Http.json response) as [[[recs|]]|]; try discriminate.
  cbn [body_records]. intros H. inversion H. eauto.
Qed.

Lemma collect_rows_nil (recs : list record) :
  collect_rows recs [] = [] <-> forall r, In r recs -> has_fields r = false.
Proof.
  induction recs as [|r recs IH].
  - split; [intros _ r [] | reflexivity].
  - rewrite collect_rows_cons. unfold has_fields in *.
    destruct (rec_fields r) as [fields|] eqn:E.
    + split; [discriminate|].
      intros H. specialize (H r (or_introl eq_refl)). rewrite E in H. discriminate.
    + rewrite IH. split.
      * intros H r' [<-|Hin]; [now rewrite E | auto].
      * intros H r' Hin. apply H. now right.
Qed.

(** A frame built from fetched rows is empty only when there is no row:
    every row has the [id] column. *)
Lemma empty_fetched_frame (c : GristClient) (table_id : string) (raw : list dict) :
  get_table_rows net c table_id = Ok raw ->
  empty (pd_DataFrame P raw) = true <-> raw = [].
Proof.
  intros Hfetch. destruct (get_table_rows_inv c table_id raw Hfetch) as [recs ->].
  split.
  - unfold empty. simpl. rewrite length_map.
    destruct (collect_rows recs []) as [|row rows'] eqn:E; auto.
    simpl. intros H.
    assert (Hid : In "id" (union_keys (row :: rows'))).
    { apply In_union_keys. exists row. split; [now left|].
      apply (collect_rows_has_id recs). rewrite E. now left. }
    destruct (union_keys (row :: rows')); [destruct Hid | discriminate].
  - intros ->. reflexivity.
Qed.

Lemma find_link_column_is_column (df : DataFrame) (dossier_id : value) (c : string) :
  find_link_column df dossier_id = Some c -> In c (columns df).
Proof.
  unfold find_link_column.
  rewrite probe_columns_find, scan_columns_find.
  destruct (find (fun c0 => has_column c0 df) dossier_id_columns) as [c0|] eqn:Hprobe.
  - apply find_some in Hprobe. destruct Hprobe as [_ Hc].
    destruct (not_found (Some c0)); [|intros H; inversion H; subst;
                                       now apply existsb_eqb_In].
    destruct ((0 <? List.length (rows df))%nat && negb (is_none dossier_id)).
    + destruct (find _ (columns df)) as [c1|] eqn:Hscan.
      * apply find_some in Hscan. destruct Hscan as [Hin _].
        destruct (not_found (Some c1)); [discriminate|].
        intros H. inversion H. now subst.
      * destruct (not_found (Some c0)); [discriminate|].
        intros H. inversion H. subst. now apply existsb_eqb_In.
    + destruct (not_found (Some c0)); [discriminate|].
      intros H. inversion H. subst. now apply existsb_eqb_In.
  - cbn [not_found].
    destruct ((0 <? List.length (rows df))%nat && negb (is_none dossier_id)).
    + destruct (find _ (columns df)) as [c1|] eqn:Hscan; [|discriminate].
      apply find_some in Hscan. destruct Hscan as [Hin _].
      destruct (not_found (Some c1)); [discriminate|].
      intros H. inversion H. now subst.
    + discriminate.
Qed.

Lemma rechercher_annotations_unfold (dossier_id : value) (raw : list dict) (c : string) :
  get_table_rows net (get_grist_client cfg) (GRIST_ANNOTATIONS_TABLE cfg) = Ok raw ->
  raw <> [] ->
  find_link_column (pd_DataFrame P raw) dossier_id = Some c ->
  rechercher_annotations_par_id_dossier P cfg net dossier_id =
  match filter (fun r => pd_eq (cell r c) dossier_id) raw with
  | [] => inr NoAnnotation
  | r :: _ => inl (format_result (to_dict (pd_DataFrame P raw) (store_row P raw r)))
  end.
Proof.
  intros Hfetch Hne Hfind. unfold rechercher_annotations_par_id_dossier.
  rewrite (get_table_data_rows P net _ _ _ Hfetch). cbn [bind].
  destruct (empty (pd_DataFrame P raw)) eqn:He.
  { apply (empty_fetched_frame _ _ _ Hfetch) in He. contradiction. }
  rewrite Hfind.
  pose proof (find_link_column_is_column _ _ _ Hfind) as Hc.
  unfold filter_eq.
  assert (Hhas : has_column c (pd_DataFrame P raw) = true)
    by now apply existsb_eqb_In.
  rewrite Hhas. cbn [bind rows pd_DataFrame].
  rewrite filter_map_comm.
  rewrite (filter_ext _ (fun r => pd_eq (cell r c) dossier_id))
    by (intros r; now apply pd_eq_store_row).
  destruct (filter _ raw); reflexivity.
Qed.

(** X5. Once a link column [c] is settled on, the annotation of a case is
    the first record, in server order, whose cell in [c] equals the case
    identifier; when no record has such a cell the lookup fails with
    "Aucune annotation trouvée pour ce dossier". *)
Theorem rechercher_annotations_first_match
    (dossier_id : value) (raw : list dict) (c : string) :
  get_table_rows net (get_grist_client cfg) (GRIST_ANNOTATIONS_TABLE cfg) = Ok raw ->
  find_link_column (pd_DataFrame P raw) dossier_id = Some c ->
  ((forall r, In r raw -> pd_eq (cell r c) dossier_id = false) ->
   raw <> [] ->
   rechercher_annotations_par_id_dossier P cfg net dossier_id = inr NoAnnotation) /\
  (forall before r after,
     raw = (before ++ r :: after)%list ->
     (forall r', In r' before -> pd_eq (cell r' c) dossier_id = false) ->
     pd_eq (cell r c) dossier_id = true ->
     exists row,
       rechercher_annotations_par_id_dossier P cfg net dossier_id = inl row /\
       selected_from r row).
Proof.
  intros Hfetch Hfind. split.
  - intros Hno Hne.
    rewrite (rechercher_annotations_unfold dossier_id raw c Hfetch Hne Hfind).
    now rewrite filter_none.
  - intros before r after Hraw Hbefore Hr.
    assert (Hne : raw <> []) by (rewrite Hraw; now destruct before).
    rewrite (rechercher_annotations_unfold dossier_id raw c Hfetch Hne Hfind).
    subst raw. rewrite filter_first by assumption.
    eexists. split; [reflexivity|].
    apply (selected_from_stored P HP).
    apply in_or_app. right. now left.
Qed.

(** X6. The lookup answers "Aucune donnée dans la table des annotations"
    exactly when no record of the fetched annotations table has a [fields]
    map. *)
Theorem rechercher_annotations_empty_iff
    (dossier_id : value) (response : Http.response records_body) (recs : list record) :
  falsy_opt (GRIST_DOC_ID cfg) = false ->
  get_records net (get_req (get_grist_client cfg)
                     ("/tables/" ++ GRIST_ANNOTATIONS_TABLE cfg ++ "/records")) =
    Ok response ->
  status_code response = 200 ->
  Http.json response = Some {| body_records := Some recs |} ->
  (rechercher_annotations_par_id_dossier P cfg net dossier_id = inr EmptyAnnotations <->
   forall r, In r recs -> has_fields r = false).
Proof.
  intros Hdoc Hget Hs Hj.
  assert (Hfetch : get_table_rows net (get_grist_client cfg)
                     (GRIST_ANNOTATIONS_TABLE cfg) = Ok (collect_rows recs [])).
  { unfold get_table_rows.
    change (doc_id (get_grist_client cfg)) with (GRIST_DOC_ID cfg).
    rewrite Hdoc, Hget. cbn [bind].
    rewrite Hs, Hj. reflexivity. }
  rewrite <- collect_rows_nil. split.
  - intros Hres.
    destruct (collect_rows recs []) as [|row rows'] eqn:E; auto.
    exfalso. revert Hres.
    unfold rechercher_annotations_par_id_dossier.
    rewrite (get_table_data_rows P net _ _ _ Hfetch). cbn [bind].
    destruct (empty (pd_DataFrame P (row :: rows'))) eqn:He.
    { apply (empty_fetched_frame _ _ _ Hfetch) in He. discriminate. }
    destruct (find_link_column _ dossier_id) as [c|]; [|discriminate].
    destruct (filter_eq _ c dossier_id) as [ann|e]; [|discriminate].
    cbn [bind]. destruct (rows ann); discriminate.
  - intros Hnil. rewrite Hnil in Hfetch.
    now apply rechercher_annotations_empty_table.
Qed.

End AnnotationFacts.

(** ** Amounts: from [str] in the resolver to [int] in the validator *)

Section AmountStrings.

Import App Re.

Lemma scan_digits_end (rest : string) (acc : Z) (n : nat) :
  match rest with
  | EmptyString => True
  | String c _ => digit c = false /\ c <> "_"%char
  end ->
  scan_digits rest acc true n = Some (acc, n, rest).
Proof.
  destruct rest as [|c rest']; simpl; auto.
  intros [Hd Hu]. rewrite Hd.
  apply Ascii.eqb_neq in Hu. now rewrite Hu.
Qed.

Lemma scan_digits_uint_acc (d : Decimal.uint) (rest : string) (acc : positive) (n : nat) :
  match rest with
  | EmptyString => True
  | String c _ => digit c = false /\ c <> "_"%char
  end ->
  scan_digits (NilEmpty.string_of_uint d ++ rest) (Zpos acc) true n =
  Some (Zpos (Pos.of_uint_acc d acc), (n + Decimal.nb_digits d)%nat, rest).
Proof.
  intros Hrest. revert acc n.
  induction d; intros acc n; simpl NilEmpty.string_of_uint; simpl Decimal.nb_digits;
    [ rewrite Nat.add_0_r; now apply scan_digits_end | .. ];
    cbn [append scan_digits];
    match goal with |- context [digit ?c] => change (digit c) with true end;
    cbv iota; cbn [Pos.of_uint_acc];
    match goal with
    | |- context [digit_val ?c] =>
      let k := eval vm_compute in (digit_val c) in change (digit_val c) with k
    end;
    match goal with
    | |- scan_digits _ ?v _ _ = Some (Z.pos (Pos.of_uint_acc _ ?p), _, _) =>
      replace v with (Z.pos p) by lia
    end;
    rewrite <- Nat.add_succ_comm; now rewrite IHd.
Qed.

Ltac eval_digit :=
  match goal with |- context [digit ?c] => change (digit c) with true end;
  cbv iota.

Lemma scan_digits_uint (d : Decimal.uint) (rest : string) (b : bool) (n : nat) :
  match rest with
  | EmptyString => True
  | String c _ => digit c = false /\ c <> "_"%char
  end ->
  d <> Decimal.Nil \/ b = true ->
  scan_digits (NilEmpty.string_of_uint d ++ rest) 0 b n =
  Some (Z.of_N (Pos.of_uint d), (n + Decimal.nb_digits d)%nat, rest).
Proof.
  intros Hrest. revert b n.
  induction d; intros b n Hd; simpl NilEmpty.string_of_uint; simpl Decimal.nb_digits;
    [ destruct Hd as [Hd| ->]; [now elim Hd|];
      rewrite Nat.add_0_r; now apply scan_digits_end
    | cbn [append scan_digits]; eval_digit;
      change (10 * 0 + digit_val "0") with 0;
      rewrite <- Nat.add_succ_comm; now rewrite IHd by now right
    | .. ];
    cbn [append scan_digits]; eval_digit;
    match goal with
    | |- scan_digits _ ?v _ _ = _ =>
      let k := eval vm_compute in v in change v with k
    end;
    rewrite <- Nat.add_succ_comm;
    now rewrite scan_digits_uint_acc by assumption.
Qed.

Lemma length_string_of_uint (d : Decimal.uint) :
  String.length (NilEmpty.string_of_uint d) = Decimal.nb_digits d.
Proof. induction d; simpl; congruence. Qed.

Lemma lstrip_uint (d : Decimal.uint) (rest : string) :
  d <> Decimal.Nil ->
  lstrip (NilEmpty.string_of_uint d ++ rest) = (NilEmpty.string_of_uint d ++ rest)%string.
Proof. destruct d; intros H; [now elim H | reflexivity ..]. Qed.

Lemma int_of_string_sign (d : Decimal.uint) (rest : string) :
  d <> Decimal.Nil ->
  int_of_string (NilEmpty.string_of_uint d ++ rest) =
  match scan_digits (NilEmpty.string_of_uint d ++ rest) 0 false 0 with
  | Some (n, count, rest') =>
    match lstrip rest' with
    | EmptyString => if (int_max_str_digits <? count)%nat then None else Some (1 * n)
    | _ => None
    end
  | None => None
  end.
Proof.
  intros H. unfold int_of_string. rewrite lstrip_uint by assumption.
  destruct d; [now elim H | reflexivity ..].
Qed.

Lemma string_app_nil_r (s : string) : (s ++ "")%string = s.
Proof. induction s; simpl; congruence. Qed.

Lemma int_of_string_uint (d : Decimal.uint) :
  d <> Decimal.Nil -> (Decimal.nb_digits d <= int_max_str_digits)%nat ->
  int_of_string (NilEmpty.string_of_uint d) = Some (Z.of_N (Pos.of_uint d)).
Proof.
  intros Hd Hn.
  rewrite <- (string_app_nil_r (NilEmpty.string_of_uint d)).
  rewrite int_of_string_sign by assumption.
  rewrite scan_digits_uint by (simpl; auto). simpl lstrip. cbv iota.
  apply Nat.ltb_ge in Hn. simpl Nat.add. rewrite Hn. now rewrite Z.mul_1_l.
Qed.

Lemma int_of_string_neg_uint (d : Decimal.uint) :
  d <> Decimal.Nil -> (Decimal.nb_digits d <= int_max_str_digits)%nat ->
  int_of_string (String "-" (NilEmpty.string_of_uint d)) =
  Some (- Z.of_N (Pos.of_uint d)).
Proof.
  intros Hd Hn. unfold int_of_string.
  change (lstrip (String "-" (NilEmpty.string_of_uint d)))
    with (String "-" (NilEmpty.string_of_uint d)).
  cbv beta iota. change (Ascii.eqb "-" "-") with true. cbv iota.
  rewrite <- (string_app_nil_r (NilEmpty.string_of_uint d)).
  rewrite scan_digits_uint by (simpl; auto). simpl lstrip. cbv iota.
  apply Nat.ltb_ge in Hn. simpl Nat.add. rewrite Hn.
  f_equal; try lia.
Qed.

Lemma nil_zero_uint (d : Decimal.uint) :
  d <> Decimal.Nil -> NilZero.string_of_uint d = NilEmpty.string_of_uint d.
Proof. destruct d; intros H; [now elim H | reflexivity ..]. Qed.

(** [int(str(z))] is [z]. *)
Lemma int_of_string_str_of_Z (z : Z) :
  (String.length (str_of_Z z) <= int_max_str_digits)%nat ->
  int_of_string (str_of_Z z) = Some z.
Proof.
  unfold str_of_Z. destruct z as [|p|p]; intros Hlen.
  - reflexivity.
  - simpl Z.to_int in *. simpl NilZero.string_of_int in *.
    pose proof (Unsigned.to_uint_nonnil p) as Hp.
    rewrite nil_zero_uint in * by assumption.
    rewrite length_string_of_uint in Hlen.
    rewrite int_of_string_uint by assumption.
    now rewrite Unsigned.of_to.
  - simpl Z.to_int in *. simpl NilZero.string_of_int in *.
    pose proof (Unsigned.to_uint_nonnil p) as Hp.
    rewrite nil_zero_uint in * by assumption.
    simpl String.length in Hlen. rewrite length_string_of_uint in Hlen.
    rewrite int_of_string_neg_uint by (auto; lia).
    now rewrite Unsigned.of_to.
Qed.

(** [int] refuses what [str] prints for a float. *)
Lemma int_of_string_float (z : Z) :
  int_of_string (str_of_Z z ++ ".0") = None.
Proof.
  unfold str_of_Z. destruct z as [|p|p].
  - reflexivity.
  - simpl Z.to_int. simpl NilZero.string_of_int.
    pose proof (Unsigned.to_uint_nonnil p) as Hp.
    rewrite nil_zero_uint by assumption.
    rewrite int_of_string_sign by assumption.
    rewrite scan_digits_uint; [reflexivity | split; [reflexivity | discriminate] | auto].
  - simpl Z.to_int. simpl NilZero.string_of_int.
    pose proof (Unsigned.to_uint_nonnil p) as Hp.
    rewrite nil_zero_uint by assumption.
    unfold int_of_string.
    change (lstrip (String "-" (NilEmpty.string_of_uint (Pos.to_uint p)) ++ ".0"))
      with (String "-" (NilEmpty.string_of_uint (Pos.to_uint p) ++ ".0")).
    cbv beta iota. change (Ascii.eqb "-" "-") with true. cbv iota.
    rewrite scan_digits_uint; [reflexivity | split; [reflexivity | discriminate] | auto].
Qed.

(** X7. An integer amount survives the passage through the record: the
    resolver stores [str(z)] and the validator's [int] reads [z] back
    (within the digit limit of [int]), so an amount label is reported
    exactly when the integer is 0 or less. *)
Theorem verifier_reads_integer_amounts
    (form_data : dict) (s : string) (drac draaf : Z) :
  get_default "Email" (PStr "") form_data = PStr s ->
  dict_get "Montant_DRAC" form_data = Some (PStr (str (PNum drac false))) ->
  dict_get "Montant_DRAAF" form_data = Some (PStr (str (PNum draaf false))) ->
  (String.length (str (PNum drac false)) <= int_max_str_digits)%nat ->
  (String.length (str (PNum draaf false)) <= int_max_str_digits)%nat ->
  py_int (PStr (str (PNum drac false))) = Ok drac /\
  py_int (PStr (str (PNum draaf false))) = Ok draaf /\
  exists champs,
    verifier_champs_obligatoires form_data = Ok champs /\
    (In "Montant DRAC" champs <-> drac <= 0) /\
    (In "Montant DRAAF" champs <-> draaf <= 0).
Proof.
  intros Hs Ha Hb Hla Hlb. simpl str in *.
  assert (Hpa : py_int (PStr (str_of_Z drac)) = Ok drac).
  { simpl. now rewrite int_of_string_str_of_Z. }
  assert (Hpb : py_int (PStr (str_of_Z draaf)) = Ok draaf).
  { simpl. now rewrite int_of_string_str_of_Z. }
  split; [assumption|]. split; [assumption|].
  assert (Ha' : py_int (get_default "Montant_DRAC" (PNum 0 false) form_data) = Ok drac).
  { unfold get_default. now rewrite Ha. }
  assert (Hb' : py_int (get_default "Montant_DRAAF" (PNum 0 false) form_data) = Ok draaf).
  { unfold get_default. now rewrite Hb. }
  destruct (verifier_with_amounts form_data s drac draaf Hs Ha' Hb') as [champs Hok].
  exists champs. split; [assumption|].
  destruct (amount_labels form_data champs Hok) as [a [b [Ea [Eb [Hia Hib]]]]].
  rewrite Ha' in Ea. rewrite Hb' in Eb. inversion Ea. inversion Eb. subst.
  split; assumption.
Qed.

(** X8. An amount that reached the record as a float, as [None] or as
    [nan] stops the validator: [str] prints ["z.0"], ["None"] or ["nan"],
    and [int] raises [ValueError] on each, so no list of missing fields is
    returned. *)
Theorem verifier_raises_on_widened_amount
    (form_data : dict) (s : string) (v : value) :
  get_default "Email" (PStr "") form_data = PStr s ->
  dict_get "Montant_DRAC" form_data = Some (PStr (str v)) ->
  (v = PNone \/ v = PNaN \/ exists z, v = PNum z true) ->
  exists msg, verifier_champs_obligatoires form_data = Raise (ValueError msg).
Proof.
  intros Hs Hv Hcase.
  assert (Hint : exists msg, py_int (PStr (str v)) = Raise (ValueError msg)).
  { destruct Hcase as [->|[->|[z ->]]]; simpl; eauto.
    rewrite int_of_string_float. eauto. }
  destruct Hint as [msg Hint]. exists msg.
  assert (Hint' : py_int (get_default "Montant_DRAC" (PNum 0 false) form_data) =
                  Raise (ValueError msg)).
  { unfold get_default. now rewrite Hv. }
  unfold verifier_champs_obligatoires. rewrite Hs, Hint'.
  destruct (negb (truthy (PStr s))); reflexivity.
Qed.

Lemma verifier_reads_integer_amounts_witness :
  py_int (PStr (str (PNum 1000 false))) = Ok 1000 /\
  py_int (PStr (str (PNum (-5) false))) = Ok (-5) /\
  exists champs,
    verifier_champs_obligatoires
      [ ("Email", PStr "a@b.com"); ("Montant_DRAC", PStr "1000");
        ("Montant_DRAAF", PStr "-5") ] = Ok champs /\
    (In "Montant DRAC" champs <-> 1000 <= 0) /\
    (In "Montant DRAAF" champs <-> -5 <= 0).
Proof.
  apply (verifier_reads_integer_amounts
           [ ("Email", PStr "a@b.com"); ("Montant_DRAC", PStr "1000");
             ("Montant_DRAAF", PStr "-5") ] "a@b.com" 1000 (-5));
    [ reflexivity | reflexivity | reflexivity
    | apply Nat.leb_le; reflexivity | apply Nat.leb_le; reflexivity ].
Defined.

Lemma verifier_raises_on_widened_amount_witness :
  exists msg,
    verifier_champs_obligatoires
      [ ("Email", PStr "a@b.com"); ("Montant_DRAC", PStr "1000.0");
        ("Montant_DRAAF", PStr "500") ] = Raise (ValueError msg).
Proof.
  apply (verifier_raises_on_widened_amount
           [ ("Email", PStr "a@b.com"); ("Montant_DRAC", PStr "1000.0");
             ("Montant_DRAAF", PStr "500") ] "a@b.com" (PNum 1000 true)).
  - reflexivity.
  - reflexivity.
  - right. right. exists 1000. reflexivity.
Defined.

End AmountStrings.

(** ** Resolution, end to end *)

Section ResolutionFacts.

Import Grist App Spec.

Variable P : casts.
Variable cfg : config.
Variable net : remote.
Hypothesis HP : casts_sound P.

(** X9. When the annotation of the case is found, each amount of the
    record is [str] of the annotation's cell in the amount column, [nan]
    included when that record lacks the cell; it is ["0"] only when no
    record of the annotations table has the amount column. *)
Theorem valider_reads_annotation_amounts
    (email : string) (row : remote_row) (raw : list dict) (c : string)
    (before after : list dict) (r : dict) :
  rechercher_dossier_par_email P cfg net email = inl row ->
  get_table_rows net (get_grist_client cfg) (GRIST_ANNOTATIONS_TABLE cfg) = Ok raw ->
  find_link_column (pd_DataFrame P raw) (row_id row) = Some c ->
  raw = (before ++ r :: after)%list ->
  (forall r', In r' before -> pd_eq (cell r' c) (row_id row) = false) ->
  pd_eq (cell r c) (row_id row) = true ->
  exists drac draaf,
    valider_email_et_recuperer_donnees P cfg net email =
      inl (combine email (row_fields row) (str drac) (str draaf)) /\
    column_cell raw r COL_MONTANT_DRAC (eq (PStr "0")) drac /\
    column_cell raw r COL_MONTANT_DRAAF (eq (PStr "0")) draaf.
Proof.
  intros Hrow Hfetch Hfind Hraw Hbefore Hr.
  assert (Hne : raw <> []) by (rewrite Hraw; now destruct before).
  rewrite (valider_unfold P cfg net email row Hrow).
  rewrite (rechercher_annotations_unfold P cfg net HP (row_id row) raw c Hfetch Hne Hfind).
  assert (Hf : filter (fun r0 => pd_eq (cell r0 c) (row_id row)) raw =
               r :: filter (fun r0 => pd_eq (cell r0 c) (row_id row)) after).
  { rewrite Hraw. now apply filter_first. }
  rewrite Hf.
  do 2 eexists. split; [reflexivity|]. split.
  - apply (row_fields_column_cell P HP raw r COL_MONTANT_DRAC (PStr "0")). discriminate.
  - apply (row_fields_column_cell P HP raw r COL_MONTANT_DRAAF (PStr "0")). discriminate.
Qed.

(** X10. Resolution fails exactly when the case lookup fails, and with the
    same error: no failure of the annotation lookup is ever returned.  A
    resolved record has exactly the six keys [Nom], [Email],
    [Titre_du_projet], [Numero_dossier], [Montant_DRAC], [Montant_DRAAF],
    in that order, and both amounts are strings. *)
Theorem valider_outcomes (email : string) :
  (forall e,
     valider_email_et_recuperer_donnees P cfg net email = inr e <->
     rechercher_dossier_par_email P cfg net email = inr e) /\
  (forall data,
     valider_email_et_recuperer_donnees P cfg net email = inl data ->
     keys data = [ "Nom"; "Email"; "Titre_du_projet"; "Numero_dossier";
                   "Montant_DRAC"; "Montant_DRAAF" ] /\
     exists drac draaf,
       dict_get "Montant_DRAC" data = Some (PStr drac) /\
       dict_get "Montant_DRAAF" data = Some (PStr draaf)).
Proof.
  split.
  - intros e.
    destruct (rechercher_dossier_par_email P cfg net email) as [row|e'] eqn:Hrow.
    + rewrite (valider_unfold P cfg net email row Hrow).
      destruct (rechercher_annotations_par_id_dossier P cfg net (row_id row));
        split; discriminate.
    + rewrite (valider_dossier_error P cfg net email e' Hrow).
      split; intros H; inversion H; reflexivity.
  - intros data Hok.
    destruct (rechercher_dossier_par_email P cfg net email) as [row|e'] eqn:Hrow.
    + rewrite (valider_unfold P cfg net email row Hrow) in Hok.
      destruct (rechercher_annotations_par_id_dossier P cfg net (row_id row));
        inversion Hok; subst; (split; [reflexivity|]);
        do 2 eexists; split; reflexivity.
    + rewrite (valider_dossier_error P cfg net email e' Hrow) in Hok. discriminate.
Qed.

(** X11. A cases table none of whose records has a [fields] map, the
    empty table included, has no email column: every search, for any
    email, ends with the column error and not with "no case found". *)
Theorem rechercher_dossier_without_rows
    (email : string) (response : Http.response records_body) (recs : list record) :
  falsy_opt (GRIST_DOC_ID cfg) = false ->
  get_records net (get_req (get_grist_client cfg)
                     ("/tables/" ++ GRIST_PROJETS_TABLE cfg ++ "/records")) =
    Ok response ->
  status_code response = 200 ->
  Http.json response = Some {| body_records := Some recs |} ->
  (forall r, In r recs -> has_fields r = false) ->
  rechercher_dossier_par_email P cfg net email = inr SchemaMismatch.
Proof.
  intros Hdoc Hget Hs Hj Hnone.
  assert (Hfetch : get_table_rows net (get_grist_client cfg)
                     (GRIST_PROJETS_TABLE cfg) = Ok []).
  { unfold get_table_rows.
    change (doc_id (get_grist_client cfg)) with (GRIST_DOC_ID cfg).
    rewrite Hdoc, Hget. cbn [bind]. rewrite Hs, Hj.
    change (negb (200 =? 200)) with false. cbn [body_records].
    f_equal. now apply collect_rows_nil. }
  now rewrite (rechercher_dossier_unfold P cfg net HP email [] Hfetch).
Qed.

(** X12. A record resolved while the annotation lookup fails is never
    complete: the validator returns normally on it and reports both
    amounts as missing. *)
Theorem resolved_without_annotation_lacks_amounts
    (email : string) (row : remote_row) (e : annotation_error) :
  rechercher_dossier_par_email P cfg net email = inl row ->
  rechercher_annotations_par_id_dossier P cfg net (row_id row) = inr e ->
  exists data champs,
    valider_email_et_recuperer_donnees P cfg net email = inl data /\
    verifier_champs_obligatoires data = Ok champs /\
    In "Montant DRAC" champs /\ In "Montant DRAAF" champs.
Proof.
  intros Hrow Hann.
  rewrite (valider_unfold P cfg net email row Hrow), Hann.
  set (data := combine email (row_fields row) "0" "0").
  assert (Hs : get_default "Email" (PStr "") data = PStr email) by reflexivity.
  assert (Ha : py_int (get_default "Montant_DRAC" (PNum 0 false) data) = Ok 0)
    by reflexivity.
  assert (Hb : py_int (get_default "Montant_DRAAF" (PNum 0 false) data) = Ok 0)
    by reflexivity.
  destruct (verifier_with_amounts data email 0 0 Hs Ha Hb) as [champs Hok].
  exists data, champs. split; [reflexivity|]. split; [assumption|].
  destruct (amount_labels data champs Hok) as [a [b [Ea [Eb [Hia Hib]]]]].
  rewrite Ha in Ea. rewrite Hb in Eb. inversion Ea. inversion Eb. subst.
  split; [apply Hia | apply Hib]; lia.
Qed.

End ResolutionFacts.

Section ResolutionFactsInstances.

Import Grist App Spec Examples.

Lemma find_link_column_refines_witness :
  find_link_column (pd_DataFrame object_casts (collect_rows [annotation_3] []))
                   (PNum 7 false) =
  link_column (pd_DataFrame object_casts (collect_rows [annotation_3] []))
              (PNum 7 false).
Proof.
  apply (find_link_column_refines
           (pd_DataFrame object_casts (collect_rows [annotation_3] [])) (PNum 7 false)).
  simpl. intuition discriminate.
Defined.

Lemma rechercher_annotations_first_match_witness :
  exists row,
    rechercher_annotations_par_id_dossier object_casts cfg
      (serve (records_response [case_7]) (records_response [annotation_3]))
      (PNum 7 false) = inl row /\
    selected_from (dict_set "id" (PNum 3 false)
                     [ ("dossier_id", PNum 7 false);
                       ("montant_drac", PNum 1000 false);
                       ("montant_draaf", PNum 500 false) ]) row.
Proof.
  refine (proj2 (rechercher_annotations_first_match object_casts cfg
            (serve (records_response [case_7]) (records_response [annotation_3]))
            object_casts_sound (PNum 7 false) _ "dossier_id" eq_refl eq_refl)
          [] _ [] eq_refl _ eq_refl).
  intros r' [].
Defined.

Lemma rechercher_annotations_empty_iff_witness :
  rechercher_annotations_par_id_dossier object_casts cfg
    (serve (records_response [case_7]) (records_response [bare_8]))
    (PNum 7 false) = inr EmptyAnnotations <->
  forall r, In r [bare_8] -> has_fields r = false.
Proof.
  exact (rechercher_annotations_empty_iff object_casts cfg
           (serve (records_response [case_7]) (records_response [bare_8]))
           (PNum 7 false) _ [bare_8] eq_refl eq_refl eq_refl eq_refl).
Defined.

Lemma valider_reads_annotation_amounts_witness :
  exists drac draaf,
    valider_email_et_recuperer_donnees object_casts cfg
      (serve (records_response [case_7]) (records_response [annotation_3]))
      "a@b.com" =
      inl (combine "a@b.com"
             [ ("usager_email", PStr "a@b.com"); ("A_titre_du_projet", PStr "Proj X");
               ("N_dossier", PStr "D1") ] (str drac) (str draaf)) /\
    column_cell (collect_rows [annotation_3] [])
      (dict_set "id" (PNum 3 false)
         [ ("dossier_id", PNum 7 false); ("montant_drac", PNum 1000 false);
           ("montant_draaf", PNum 500 false) ])
      COL_MONTANT_DRAC (eq (PStr "0")) drac /\
    column_cell (collect_rows [annotation_3] [])
      (dict_set "id" (PNum 3 false)
         [ ("dossier_id", PNum 7 false); ("montant_drac", PNum 1000 false);
           ("montant_draaf", PNum 500 false) ])
      COL_MONTANT_DRAAF (eq (PStr "0")) draaf.
Proof.
  refine (valider_reads_annotation_amounts object_casts cfg
            (serve (records_response [case_7]) (records_response [annotation_3]))
            object_casts_sound "a@b.com"
            {| row_id := PNum 7 false;
               row_fields := [ ("usager_email", PStr "a@b.com");
                               ("A_titre_du_projet", PStr "Proj X");
                               ("N_dossier", PStr "D1") ] |}
            _ "dossier_id" [] [] _ eq_refl eq_refl eq_refl eq_refl _ eq_refl).
  intros r' [].
Defined.

Lemma rechercher_dossier_without_rows_witness :
  rechercher_dossier_par_email object_casts cfg
    (serve (records_response [bare_8]) timeout) "a@b.com" = inr SchemaMismatch.
Proof.
  exact (rechercher_dossier_without_rows object_casts cfg
           (serve (records_response [bare_8]) timeout) object_casts_sound
           "a@b.com" _ [bare_8] eq_refl eq_refl eq_refl eq_refl
           (fun r H => match H with
                       | or_introl E => match E with eq_refl => eq_refl end
                       | or_intror F => match F with end
                       end)).
Defined.

Lemma resolved_without_annotation_lacks_amounts_witness :
  exists data champs,
    valider_email_et_recuperer_donnees object_casts cfg
      (serve (records_response [case_7]) timeout) "a@b.com" = inl data /\
    verifier_champs_obligatoires data = Ok champs /\
    In "Montant DRAC" champs /\ In "Montant DRAAF" champs.
Proof.
  exact (resolved_without_annotation_lacks_amounts object_casts cfg
           (serve (records_response [case_7]) timeout) "a@b.com" _ _
           eq_refl eq_refl).
Defined.

End ResolutionFactsInstances.

(** ** Mapping the record to the form fields *)

Section MapData.

Import Grist Prefill.

Lemma field_id_in (k id : string) :
  field_id k FIELD_MAPPING = Some id -> In (k, id) FIELD_MAPPING.
Proof.
  unfold FIELD_MAPPING. cbn [field_id In].
  repeat match goal with
         | |- context [(?a =? k)%string] =>
           destruct (String.eqb_spec a k) as [<-|_];
           [intros H; inversion H; subst; tauto|]
         end.
  discriminate.
Qed.

(** The mapping table sends different attributes to different fields. *)
Lemma field_id_injective (k k' id : string) :
  field_id k FIELD_MAPPING = Some id -> field_id k' FIELD_MAPPING = Some id -> k = k'.
Proof.
  intros H H'. apply field_id_in in H. apply field_id_in in H'.
  unfold FIELD_MAPPING in *. simpl in *.
  repeat match goal with
         | H : _ \/ _ |- _ => destruct H
         | H : False |- _ => destruct H
         | H : (_, _) = (_, _) |- _ => inversion H; clear H; subst
         end; try reflexivity; discriminate.
Qed.

Lemma dict_get_not_key (k : string) (d : dict) :
  ~ In k (keys d) -> dict_get k d = None.
Proof.
  induction d as [|[k0 v0] d IH]; simpl; auto.
  intros H. destruct (String.eqb_spec k0 k) as [->|_]; [elim H; now left|].
  apply IH. intros Hin. apply H. now right.
Qed.

Lemma map_data_loop_lookup (k id : string) (items acc : dict) :
  NoDup (keys items) ->
  field_id k FIELD_MAPPING = Some id ->
  dict_get ("champ_" ++ id) (map_data_loop items acc) =
  match dict_get k items with
  | Some v => Some (PStr (str v))
  | None => dict_get ("champ_" ++ id) acc
  end.
Proof.
  intros Hnd Hk. revert acc.
  induction items as [|[k0 v0] items IH]; intros acc;
    cbn [map_data_loop dict_get]; auto.
  unfold keys in Hnd. cbn [map fst] in Hnd. fold (keys items) in Hnd.
  inversion Hnd as [|? ? Hnotin Hnd']; subst.
  destruct (String.eqb_spec k0 k) as [->|Hne].
  - rewrite Hk. rewrite (IH Hnd').
    rewrite (dict_get_not_key k items Hnotin).
    apply dict_get_set_eq.
  - destruct (field_id k0 FIELD_MAPPING) as [id0|] eqn:Hk0.
    + rewrite (IH Hnd').
      destruct (dict_get k items); auto.
      apply dict_get_set_ne. intros E. inversion E; subst.
      apply Hne. now apply (field_id_injective k0 k id).
    + apply (IH Hnd').
Qed.

(** X13. For a record (a dict, so without repeated keys), the value sent
    for the form field of a mapped attribute is [str] of that attribute,
    and the field is not sent when the record lacks the attribute. *)
Theorem map_data_lookup (data_dict : dict) (k id : string) :
  NoDup (keys data_dict) ->
  field_id k FIELD_MAPPING = Some id ->
  dict_get ("champ_" ++ id) (map_data data_dict) =
  match dict_get k data_dict with
  | Some v => Some (PStr (str v))
  | None => None
  end.
Proof.
  intros Hnd Hk. unfold map_data.
  now rewrite (map_data_loop_lookup k id data_dict [] Hnd Hk).
Qed.

Lemma In_dict_set (k : string) (v : value) (d : dict) (kv : string * value) :
  In kv (dict_set k v d) -> kv = (k, v) \/ In kv d.
Proof.
  induction d as [|[k0 v0] d IH]; simpl.
  - intros [H|[]]; auto.
  - destruct (String.eqb_spec k0 k) as [->|_]; simpl.
    + intros [H|H]; auto.
    + intros [H|H]; auto. destruct (IH H); auto.
Qed.

Lemma map_data_loop_entries (items acc : dict) (kv : string * value) :
  In kv (map_data_loop items acc) ->
  In kv acc \/
  exists k id v,
    In (k, v) items /\ field_id k FIELD_MAPPING = Some id /\
    kv = ("champ_" ++ id, PStr (str v)).
Proof.
  revert acc. induction items as [|[k0 v0] items IH]; intros acc;
    cbn [map_data_loop In]; auto.
  destruct (field_id k0 FIELD_MAPPING) as [id0|] eqn:Hk0; intros H.
  - destruct (IH _ H) as [Hacc|[k [id [v [Hin [Hk E]]]]]].
    + apply In_dict_set in Hacc. destruct Hacc as [->|Hacc]; auto.
      right. exists k0, id0, v0. auto.
    + right. exists k, id, v. auto.
  - destruct (IH _ H) as [Hacc|[k [id [v [Hin [Hk E]]]]]]; auto.
    right. exists k, id, v. auto.
Qed.

(** X14. Whatever the record holds, nothing but mapped attributes is
    sent: every entry of the mapped data is the field of one of the six
    attributes of the table, carrying [str] of a value the record has for
    that attribute; there are at most as many entries as the record has. *)
Theorem map_data_sends_only_mapped_fields (data_dict : dict) :
  (forall key sent,
     In (key, sent) (map_data data_dict) ->
     exists k id v,
       In (k, v) data_dict /\ In (k, id) FIELD_MAPPING /\
       key = "champ_" ++ id /\ sent = PStr (str v)) /\
  (List.length (map_data data_dict) <= List.length data_dict)%nat.
Proof.
  split.
  - intros key sent H. unfold map_data in H.
    destruct (map_data_loop_entries data_dict [] (key, sent) H)
      as [[]|[k [id [v [Hin [Hk E]]]]]].
    inversion E; subst. exists k, id, v. repeat split; auto.
    now apply field_id_in.
  - unfold map_data.
    assert (H : forall items acc,
               (List.length (map_data_loop items acc)
                <= List.length acc + List.length items)%nat).
    { induction items as [|[k0 v0] items IH]; intros acc;
        cbn [map_data_loop List.length]; [lia|].
      assert (Hset : forall k v d,
                 (List.length (dict_set k v d) <= S (List.length d))%nat).
      { intros k v d. induction d as [|[k1 v1] d IHd]; simpl; [lia|].
        destruct (k1 =? k)%string; simpl; lia. }
      destruct (field_id k0 FIELD_MAPPING).
      - specialize (IH (dict_set ("champ_" ++ s) (PStr (str v0)) acc)).
        specialize (Hset ("champ_" ++ s) (PStr (str v0)) acc). lia.
      - specialize (IH acc). lia. }
    apply (H data_dict []).
Qed.

Variable P : casts.
Variable cfg : config.
Variable net : remote.

(** X15. Every resolved record is sent whole: its mapped data has the six
    form fields, in the order name, email, title, case number, DRAC, DRAAF,
    and the email field carries the email that was searched. *)
Theorem map_data_of_resolved_record (email : string) (data : dict) :
  valider_email_et_recuperer_donnees P cfg net email = inl data ->
  keys (map_data data) =
    [ "champ_Q2hhbXAtNjA3OTcy"; "champ_Q2hhbXAtNjA3OTc1"; "champ_Q2hhbXAtNjIyMzQw";
      "champ_Q2hhbXAtNjA3OTQ3"; "champ_Q2hhbXAtNDA3NDExMQ"; "champ_Q2hhbXAtNDA3NDExMg" ] /\
  dict_get "champ_Q2hhbXAtNjA3OTc1" (map_data data) = Some (PStr email).
Proof.
  intros Hok.
  destruct (rechercher_dossier_par_email P cfg net email) as [row|e] eqn:Hrow.
  - rewrite (valider_unfold P cfg net email row Hrow) in Hok.
    destruct (rechercher_annotations_par_id_dossier P cfg net (row_id row));
      inversion Hok; subst; split; reflexivity.
  - rewrite (valider_dossier_error P cfg net email e Hrow) in Hok. discriminate.
Qed.

End MapData.

Section MapDataInstances.

Import Grist Prefill Examples.

Lemma map_data_lookup_witness :
  dict_get ("champ_" ++ "Q2hhbXAtNjA3OTc1")
    (map_data [ ("Email", PStr "a@b.com"); ("Autre", PStr "x"); ("Montant_DRAC", PNum 3 false) ]) =
  match dict_get "Email"
          [ ("Email", PStr "a@b.com"); ("Autre", PStr "x"); ("Montant_DRAC", PNum 3 false) ] with
  | Some v => Some (PStr (str v))
  | None => None
  end.
Proof.
  apply (map_data_lookup
           [ ("Email", PStr "a@b.com"); ("Autre", PStr "x"); ("Montant_DRAC", PNum 3 false) ]
           "Email" "Q2hhbXAtNjA3OTc1").
  - simpl. repeat constructor; simpl; intuition discriminate.
  - reflexivity.
Defined.

Lemma map_data_of_resolved_record_witness :
  keys (map_data
          [ ("Nom", PStr ""); ("Email", PStr "a@b.com");
            ("Titre_du_projet", PStr "Proj X"); ("Numero_dossier", PStr "D1");
            ("Montant_DRAC", PStr "1000"); ("Montant_DRAAF", PStr "500") ]) =
    [ "champ_Q2hhbXAtNjA3OTcy"; "champ_Q2hhbXAtNjA3OTc1"; "champ_Q2hhbXAtNjIyMzQw";
      "champ_Q2hhbXAtNjA3OTQ3"; "champ_Q2hhbXAtNDA3NDExMQ"; "champ_Q2hhbXAtNDA3NDExMg" ] /\
  dict_get "champ_Q2hhbXAtNjA3OTc1"
    (map_data
       [ ("Nom", PStr ""); ("Email", PStr "a@b.com");
         ("Titre_du_projet", PStr "Proj X"); ("Numero_dossier", PStr "D1");
         ("Montant_DRAC", PStr "1000"); ("Montant_DRAAF", PStr "500") ]) =
    Some (PStr "a@b.com").
Proof.
  exact (map_data_of_resolved_record object_casts cfg
           (serve (records_response [case_7]) (records_response [annotation_3]))
           "a@b.com" _ eq_refl).
Defined.

End MapDataInstances.

(** ** The page *)

Section PageFacts.

Import Grist Re App Prefill Ui.


(** X17. [afficher_resultat] never touches the record.  It sends a
    request to the prefill service only when the user asked for it, no
    link is currently generated and the validator found nothing missing;
    it marks a link as generated only after a request answered with status
    201, whose payload was the mapped record, and then stores the value
    returned; and asking for a new link clears the stored one. *)
Theorem afficher_resultat_transitions
    (API_TOKEN : option string) (post : request dict -> result (response json_value))
    (demarche_id : string) (st st' : session_state)
    (new_link_clicked generate_clicked : bool)
    (feedback : result_feedback) (sent : list (request dict)) :
  afficher_resultat API_TOKEN post demarche_id st new_link_clicked generate_clicked =
    Ok (st', feedback, sent) ->
  form_data st' = form_data st /\
  grist_data_loaded st' = grist_data_loaded st /\
  (sent <> [] ->
     generate_clicked = true /\ generate_success st = false /\
     verifier_champs_obligatoires (form_data st) = Ok []) /\
  (generate_success st = false -> generate_success st' = true ->
     exists req response,
       sent = [req] /\ payload req = map_data (form_data st) /\
       post req = Ok response /\ status_code response = 201 /\
       generate_prefilled_url API_TOKEN post (form_data st) demarche_id =
         (inl (dossier_url st'), [req])) /\
  (generate_success st = true ->
     sent = [] /\
     if new_link_clicked
     then generate_success st' = false /\ dossier_url st' = JStr ""
     else st' = st).
Proof.
  unfold afficher_resultat.
  destruct (verifier_champs_obligatoires (form_data st)) as [champs|e] eqn:Hv;
    cbn [bind]; [|discriminate].
  destruct (generate_success st) eqn:Hg.
  - destruct new_link_clicked; intros H; inversion H; subst; cbn;
      repeat split; auto; try discriminate; try congruence.
  - cbn [negb]. rewrite andb_true_r.
    destruct generate_clicked; cbn [andb].
    + destruct champs as [|c champs]; cbn [List.length Nat.ltb Nat.leb negb].
      * unfold generate_prefilled_url.
        destruct (falsy_opt API_TOKEN).
        { intros H; inversion H; subst. repeat split; auto; try congruence. }
        match goal with
        | |- context [post ?r] => set (req := r)
        end.
        destruct (post req) as [response|e] eqn:Hp.
        -- destruct (status_code response =? 201) eqn:Hs.
           ++ destruct (Prefill.dossier_url response) as [u|e] eqn:Hu;
                intros H; inversion H; subst; cbn;
                repeat split; auto; try discriminate; try congruence.
              intros _ _. exists req, response.
              apply Z.eqb_eq in Hs. repeat split; auto.
           ++ intros H; inversion H; subst.
              repeat split; auto; try discriminate; try congruence.
        -- intros H; inversion H; subst.
           repeat split; auto; try discriminate; try congruence.
      * intros H; inversion H; subst.
        repeat split; auto; try discriminate; try congruence.
    + intros H; inversion H; subst.
      repeat split; auto; try discriminate; try congruence.
Qed.

End PageFacts.

Section PageInstances.

Import Grist App Prefill Ui Spec Examples.


Lemma afficher_resultat_transitions_witness :
  exists st' sent,
    afficher_resultat (Some "token")
      (fun _ => Ok {| status_code := 201; text := "";
                      json := Some (JObj [("dossier_url", JStr "https://x/y")]) |})
      "111570"
      {| generate_success := false; Ui.dossier_url := JStr "";
         form_data := [ ("Nom", PStr ""); ("Email", PStr "a@b.com");
                        ("Titre_du_projet", PStr "Proj X"); ("Numero_dossier", PStr "D1");
                        ("Montant_DRAC", PStr "1000"); ("Montant_DRAAF", PStr "500") ];
         grist_data_loaded := true |}
      false true = Ok (st', RerunAfterSuccess, sent) /\
    (sent <> [] ->
     true = true /\ false = false /\
     verifier_champs_obligatoires (form_data st') = Ok []) /\
    Ui.dossier_url st' = JStr "https://x/y".
Proof.
  eexists. eexists. split; [reflexivity|].
  pose proof (afficher_resultat_transitions (Some "token")
                (fun _ => Ok {| status_code := 201; text := "";
                                json := Some (JObj [("dossier_url", JStr "https://x/y")]) |})
                "111570"
                {| generate_success := false; Ui.dossier_url := JStr "";
                   form_data := [ ("Nom", PStr ""); ("Email", PStr "a@b.com");
                                  ("Titre_du_projet", PStr "Proj X");
                                  ("Numero_dossier", PStr "D1");
                                  ("Montant_DRAC", PStr "1000");
                                  ("Montant_DRAAF", PStr "500") ];
                   grist_data_loaded := true |}
                _ false true _ _ eq_refl) as [_ [_ [Hsent _]]].
  split; [exact Hsent | reflexivity].
Defined.

Lemma resolution_reads_table_columns_witness :
  exists data numero nom titre,
    valider_email_et_recuperer_donnees object_casts cfg
      (serve (records_response [case_1_number; case_2_dossier]) (records_response []))
      "a@b.com" = inl data /\
    dict_get "Numero_dossier" data = Some numero /\
    dict_get "Nom" data = Some nom /\
    dict_get "Titre_du_projet" data = Some titre /\
    column_cell (collect_rows [case_1_number; case_2_dossier] [])
      (dict_set "id" (PNum 1 false)
         [ ("usager_email", PStr "a@b.com"); ("number", PStr "N-12") ])
      "N_dossier"
      (column_cell (collect_rows [case_1_number; case_2_dossier] [])
         (dict_set "id" (PNum 1 false)
            [ ("usager_email", PStr "a@b.com"); ("number", PStr "N-12") ])
         "number" (eq (PStr ""))) numero /\
    column_cell (collect_rows [case_1_number; case_2_dossier] [])
      (dict_set "id" (PNum 1 false)
         [ ("usager_email", PStr "a@b.com"); ("number", PStr "N-12") ])
      "A_nom" (eq (PStr "")) nom /\
    column_cell (collect_rows [case_1_number; case_2_dossier] [])
      (dict_set "id" (PNum 1 false)
         [ ("usager_email", PStr "a@b.com"); ("number", PStr "N-12") ])
      "A_titre_du_projet" (eq (PStr "")) titre.
Proof.
  refine (resolution_reads_table_columns object_casts cfg
            (serve (records_response [case_1_number; case_2_dossier])
                   (records_response []))
            object_casts_sound "a@b.com" [] _ _ eq_refl _ eq_refl).
  intros r' [].
Defined.

End PageInstances.

(** ** The assembled record and the case record *)

Section AssembledRecord.

Import Grist Spec.

Variable P : casts.
Variable cfg : config.
Variable net : remote.
Hypothesis HP : casts_sound P.






End AssembledRecord.

Section AssembledRecordInstances.

Import Grist Spec Examples.



End AssembledRecordInstances.
